(** * donkeypart_bluetooth_game_controller: the controller part, verified

    A shallow embedding of [donkeypart_bluetooth_game_controller/part.py]
    (classes [BluetoothDevice] and [BluetoothGameController]) and of the
    plotting script [circ_to_square.py].

    Modelling conventions.
    - Python floats and the integers mixed with them are exact reals ([R]);
      rounding is not modelled.
    - A method is a computation over the pair of the object ([self]) and the
      outside world ([os]: the attached input devices, the events the device
      delivers, the wall clock); it ends with a value, with a raised
      exception, or it runs out of the fuel that bounds its loops.
    - [print] is not modelled; [time.sleep] is logged in the world. *)

From Stdlib Require Import Reals Lra Psatz ZArith List String Ascii.
From stdpp Require Import base option gmap strings sorting.
Import ListNotations.

Local Open Scope R_scope.

(** ** Exceptions and results *)

Inductive exn : Type :=
  | ValueError
  | OSError
  | AttributeError
  | ZeroDivisionError
  | TypeError
  | IndexError
  | StopIteration.

(** How a call ends: [Ok a] returns [a], [Raise e] propagates [e],
    [OutOfFuel] stands for a loop that was cut before it ended. *)
Inductive outcome (A : Type) : Type :=
  | Ok (a : A)
  | Raise (e : exn)
  | OutOfFuel.
Arguments Ok {A} a.
Arguments Raise {A} e.
Arguments OutOfFuel {A}.

#[global] Instance outcome_ret : MRet outcome := fun A a => Ok a.
#[global] Instance outcome_bind : MBind outcome := fun A B f c =>
  match c with
  | Ok a => f a
  | Raise e => Raise e
  | OutOfFuel => OutOfFuel
  end.

(** ** The geometric mapper *)

(** [math.sqrt]: a [ValueError] (math domain error) below zero. *)
Definition math_sqrt (x : R) : outcome R :=
  if Rlt_dec x 0 then Raise ValueError else Ok (sqrt x).

(** The nested [max0] of [circ_to_square]: [max(x, 0)]. *)
Definition max0 (x : R) : R := Rmax x 0.

(** [BluetoothGameController.circ_to_square] (part.py, lines 234-249). It
    reads nothing of [self]. *)
Definition circ_to_square (u v : R) : outcome (R * R) :=
  sqrt2 ← math_sqrt 2;
  a ← math_sqrt (max0 (2 + 2 * u * sqrt2 + u*u - v*v));
  b ← math_sqrt (max0 (2 - 2 * u * sqrt2 + u*u - v*v));
  let x := 0.5 * (a - b) in
  c ← math_sqrt (max0 (2 + 2 * v * sqrt2 - u*u + v*v));
  d ← math_sqrt (max0 (2 - 2 * v * sqrt2 - u*u + v*v));
  let y := 0.5 * (c - d) in
  mret (x, y).

(** [to_square] of circ_to_square.py (lines 16-22), on one sample: numpy's
    [sqrt] and [maximum] raise nothing. *)
Definition to_square (u v : R) : R * R :=
  let sqrt2 := sqrt 2 in
  let x := 0.5 * ( sqrt (Rmax (2 + 2 * u * sqrt2 + u*u - v*v) 0)
                 - sqrt (Rmax (2 - 2 * u * sqrt2 + u*u - v*v) 0)) in
  let y := 0.5 * ( sqrt (Rmax (2 + 2 * v * sqrt2 - u*u + v*v) 0)
                 - sqrt (Rmax (2 - 2 * v * sqrt2 - u*u + v*v) 0)) in
  (x, y).

(** ** Python values and strings *)

Local Open Scope string_scope.

(** Float division [x / y]: [ZeroDivisionError] on a zero divisor. *)
Definition py_div (x y : R) : outcome R :=
  if Req_dec_T y 0 then Raise ZeroDivisionError else Ok (x / y).

(** A value that is a string or an integer: the search term, which
    defaults to the integer 1280 in [__init__]. *)
Inductive pyval : Type :=
  | PyStr (s : string)
  | PyInt (z : Z).

(** [str.lower] on ASCII text. *)
Definition ascii_lower (c : ascii) : ascii :=
  let n := nat_of_ascii c in
  if ((65 <=? n) && (n <=? 90))%nat then ascii_of_nat (n + 32) else c.

Fixpoint lower (s : string) : string :=
  match s with
  | EmptyString => EmptyString
  | String c rest => String (ascii_lower c) (lower rest)
  end.

(** [x.lower()]: an integer has no such method. *)
Definition py_lower (x : pyval) : outcome string :=
  match x with
  | PyStr s => Ok (lower s)
  | PyInt _ => Raise AttributeError
  end.

(** [needle in hay] on strings. *)
Fixpoint str_in (needle hay : string) : bool :=
  String.prefix needle hay ||
  match hay with
  | EmptyString => false
  | String _ rest => str_in needle rest
  end.

(** [itertools.cycle] over a list: the state is the period still to come,
    rotated by one at each [next]. An empty cycle stops at once. *)
Definition cycle (A : Type) : Type := list A.

Definition cycle_of {A : Type} (l : list A) : cycle A := l.

Definition next {A : Type} (c : cycle A) : outcome (A * cycle A) :=
  match c with
  | [] => Raise StopIteration
  | x :: rest => Ok (x, (rest ++ [x])%list)
  end.

(** ** evdev: devices and events *)

(** [evdev.InputDevice]: what the part reads of it. *)
Record InputDevice : Type := { path : string; name : string }.

(** [evdev.events.InputEvent]. *)
Record InputEvent : Type := { type : Z; code : Z; value : Z }.

(** [ecodes.EV_ABS], the type of an absolute-axis event. *)
Definition EV_ABS : Z := 3.

(** ** The outside world *)

(** [attached k] is what the [k]-th enumeration of the input devices finds,
    [incoming k] what the [k]-th read of the device delivers ([None]: the
    read raises [OSError]), [clock k] the [k]-th reading of [time.time()].
    The counters say how many of each happened; [slept] logs the arguments
    of [time.sleep], the latest first. *)
Record world : Type := {
  attached : nat -> list InputDevice;
  enumerations : nat;
  incoming : nat -> option InputEvent;
  reads : nat;
  clock : nat -> R;
  clock_reads : nat;
  slept : list R
}.

Definition set_enumerations (a : nat) (w : world) : world :=
  {| attached := attached w; enumerations := a; incoming := incoming w;
     reads := reads w; clock := clock w; clock_reads := clock_reads w;
     slept := slept w |}.

Definition set_reads (a : nat) (w : world) : world :=
  {| attached := attached w; enumerations := enumerations w;
     incoming := incoming w; reads := a; clock := clock w;
     clock_reads := clock_reads w; slept := slept w |}.

Definition set_clock_reads (a : nat) (w : world) : world :=
  {| attached := attached w; enumerations := enumerations w;
     incoming := incoming w; reads := reads w; clock := clock w;
     clock_reads := a; slept := slept w |}.

Definition set_slept (a : list R) (w : world) : world :=
  {| attached := attached w; enumerations := enumerations w;
     incoming := incoming w; reads := reads w; clock := clock w;
     clock_reads := clock_reads w; slept := a |}.

(** ** The controller object *)

(** The parsed configuration file, as [__init__] reads it with [get]. *)
Record config_t : Type := {
  cfg_button_map : option (gmap Z string);
  cfg_joystick_max_value : option Z;
  cfg_device_search_term : option pyval
}.

(** The attributes of a [BluetoothGameController], in the order [__init__]
    assigns them. [state] is the last-seen map: its keys are button names or
    [None], its values numbers or [None]. *)
Record controller : Type := {
  device : option InputDevice;
  verbose : bool;
  running : bool;
  state : gmap (option string) (option R);
  angle : R;
  throttle : R;
  u : R;
  v : R;
  angle_scale : R;
  angle_scale_increment : R;
  throttle_scale : R;
  throttle_scale_increment : R;
  y_axis_direction : R;
  drive_mode_toggle : cycle string;
  drive_mode_autonomous_toggle : cycle string;
  drive_mode : string;
  recording_toggle : cycle bool;
  recording : bool;
  config : config_t;
  btn_map : option (gmap Z string);
  joystick_max_value : Z;
  device_search_term : pyval
}.

Definition eta_controller (s : controller) : controller :=
  Build_controller (device s) (verbose s) (running s) (state s) (angle s)
    (throttle s) (u s) (v s) (angle_scale s) (angle_scale_increment s)
    (throttle_scale s) (throttle_scale_increment s) (y_axis_direction s)
    (drive_mode_toggle s) (drive_mode_autonomous_toggle s) (drive_mode s)
    (recording_toggle s) (recording s) (config s) (btn_map s)
    (joystick_max_value s) (device_search_term s).

(** Attribute assignment [self.x = a]: the record rebuilt with [a] in the
    place of the attribute [proj]. *)
Ltac build_setter proj :=
  let a := fresh "a" in
  let s := fresh "s" in
  intros a s;
  let e := eval cbv beta delta [eta_controller] in (eta_controller s) in
  match eval pattern (proj s) in e with
  | ?f _ => let r := eval cbv beta in (f a) in exact r
  end.

Definition set_device : option InputDevice -> controller -> controller :=
  ltac:(build_setter device).
Definition set_verbose : bool -> controller -> controller :=
  ltac:(build_setter verbose).
Definition set_running : bool -> controller -> controller :=
  ltac:(build_setter running).
Definition set_state :
  gmap (option string) (option R) -> controller -> controller :=
  ltac:(build_setter state).
Definition set_angle : R -> controller -> controller :=
  ltac:(build_setter angle).
Definition set_throttle : R -> controller -> controller :=
  ltac:(build_setter throttle).
Definition set_u : R -> controller -> controller :=
  ltac:(build_setter u).
Definition set_v : R -> controller -> controller :=
  ltac:(build_setter v).
Definition set_angle_scale : R -> controller -> controller :=
  ltac:(build_setter angle_scale).
Definition set_angle_scale_increment : R -> controller -> controller :=
  ltac:(build_setter angle_scale_increment).
Definition set_throttle_scale : R -> controller -> controller :=
  ltac:(build_setter throttle_scale).
Definition set_throttle_scale_increment : R -> controller -> controller :=
  ltac:(build_setter throttle_scale_increment).
Definition set_y_axis_direction : R -> controller -> controller :=
  ltac:(build_setter y_axis_direction).
Definition set_drive_mode_toggle : cycle string -> controller -> controller :=
  ltac:(build_setter drive_mode_toggle).
Definition set_drive_mode_autonomous_toggle :
  cycle string -> controller -> controller :=
  ltac:(build_setter drive_mode_autonomous_toggle).
Definition set_drive_mode : string -> controller -> controller :=
  ltac:(build_setter drive_mode).
Definition set_recording_toggle : cycle bool -> controller -> controller :=
  ltac:(build_setter recording_toggle).
Definition set_recording : bool -> controller -> controller :=
  ltac:(build_setter recording).
Definition set_config : config_t -> controller -> controller :=
  ltac:(build_setter config).
Definition set_btn_map : option (gmap Z string) -> controller -> controller :=
  ltac:(build_setter btn_map).
Definition set_joystick_max_value : Z -> controller -> controller :=
  ltac:(build_setter joystick_max_value).
Definition set_device_search_term : pyval -> controller -> controller :=
  ltac:(build_setter device_search_term).

(** ** Methods as computations *)

(** A method runs on the object and the world. *)
Record machine : Type := { self : controller; os : world }.

(** What a method leaves behind when it raises stays: assignments made
    before the exception are kept. *)
Definition M (A : Type) : Type := machine -> outcome A * machine.

#[global] Instance M_ret : MRet M := fun A a m => (Ok a, m).
#[global] Instance M_bind : MBind M := fun A B f c m =>
  match c m with
  | (Ok a, m') => f a m'
  | (Raise e, m') => (Raise e, m')
  | (OutOfFuel, m') => (OutOfFuel, m')
  end.

Definition raise {A : Type} (e : exn) : M A := fun m => (Raise e, m).
Definition out_of_fuel {A : Type} : M A := fun m => (OutOfFuel, m).
Definition lift {A : Type} (o : outcome A) : M A := fun m => (o, m).
Definition get_self : M controller := fun m => (Ok (self m), m).
Definition assign (f : controller -> controller) : M unit :=
  fun m => (Ok tt, {| self := f (self m); os := os m |}).
Definition effect (f : world -> world) : M unit :=
  fun m => (Ok tt, {| self := self m; os := f (os m) |}).

(** [try: body except E: handler], [handles] telling the exceptions of
    class [E]. *)
Definition try_except {A : Type} (body : M A) (handles : exn -> bool)
    (handler : M A) : M A :=
  fun m =>
    match body m with
    | (Raise e, m') => if handles e then handler m' else (Raise e, m')
    | r => r
    end.

Definition is_OSError (e : exn) : bool :=
  match e with OSError => true | _ => false end.

(** [time.sleep(secs)] and [time.time()]. *)
Definition time_sleep (secs : R) : M unit :=
  effect (fun w => set_slept (secs :: slept w) w).

Definition time_time : M R :=
  fun m =>
    let w := os m in
    (Ok (clock w (clock_reads w)),
     {| self := self m; os := set_clock_reads (S (clock_reads w)) w |}).

(** [[evdev.InputDevice(path) for path in evdev.list_devices()]]. *)
Definition all_input_devices : M (list InputDevice) :=
  fun m =>
    let w := os m in
    (Ok (attached w (enumerations w)),
     {| self := self m; os := set_enumerations (S (enumerations w)) w |}).

(** One blocking read of the device: the next event, or the [OSError] of a
    lost connection. *)
Definition read_device : M InputEvent :=
  fun m =>
    let w := os m in
    let m' := {| self := self m; os := set_reads (S (reads w)) w |} in
    match incoming w (reads w) with
    | Some event => (Ok event, m')
    | None => (Raise OSError, m')
    end.

(** [next(self.device.read_loop())]. *)
Definition next_event : M InputEvent :=
  s ← get_self;
  match device s with
  | None => raise AttributeError
  | Some _ => read_device
  end.

(** *** BluetoothDevice *)

(** The loop of [find_input_device] that collects the matching devices. *)
Fixpoint likely (search_term : pyval) (all_devices : list InputDevice)
    : outcome (list InputDevice) :=
  match all_devices with
  | [] => Ok []
  | device :: rest =>
      term ← py_lower search_term;
      likely_devices ← likely search_term rest;
      if str_in term (lower (name device))
      then Ok (device :: likely_devices)
      else Ok likely_devices
  end.

(** [BluetoothDevice.find_input_device] (lines 30-56). Falling off the end
    returns [None]. *)
Definition find_input_device (search_term : pyval) : M (option InputDevice) :=
  all_devices ← all_input_devices;
  likely_devices ← lift (likely search_term all_devices);
  if (length likely_devices =? 1)%nat then mret (head likely_devices)
  else if (2 <=? length likely_devices)%nat then raise ValueError
  else mret None.

(** The [while device is None] loop of [load_device]; [fuel] bounds the
    number of lookups. *)
Fixpoint load_device_loop (fuel : nat) (search_term : pyval) : M InputDevice :=
  match fuel with
  | O => out_of_fuel
  | S fuel' =>
      device ← find_input_device search_term;
      match device with
      | Some d => mret d
      | None => time_sleep 3;; load_device_loop fuel' search_term
      end
  end.

(** [BluetoothDevice.load_device] (lines 58-70). *)
Definition load_device (fuel : nat) (search_term : pyval) : M unit :=
  device ← load_device_loop fuel search_term;
  assign (set_device (Some device)).

(** *** BluetoothGameController: the handlers *)

(** [val == x] for a value that is a number or [None]. *)
Definition py_eq (val : option R) (x : R) : bool :=
  match val with
  | Some r => if Req_dec_T r x then true else false
  | None => false
  end.

(** [update_stick_x_map] (lines 251-261). With [None] for [val] Python
    stores it and fails with [TypeError] in the arithmetic of
    [circ_to_square]; the model, whose [u] is a number, fails before the
    store. [read_loop] never pairs [None] with a button name. *)
Definition update_stick_x_map (val : option R) : M unit :=
  match val with
  | None => raise TypeError
  | Some val =>
      assign (set_u val);;
      s ← get_self;
      '(x, y) ← lift (circ_to_square (u s) (v s));
      s ← get_self;
      assign (set_angle (x * angle_scale s));;
      s ← get_self;
      assign (set_throttle (y * throttle_scale s * y_axis_direction s))
  end.

(** [update_stick_y_map] (lines 263-273). *)
Definition update_stick_y_map (val : option R) : M unit :=
  match val with
  | None => raise TypeError
  | Some val =>
      assign (set_v val);;
      s ← get_self;
      '(x, y) ← lift (circ_to_square (u s) (v s));
      s ← get_self;
      assign (set_angle (x * angle_scale s));;
      s ← get_self;
      assign (set_throttle (y * throttle_scale s * y_axis_direction s))
  end.

(** [update_angle] and [update_throttle] (lines 275-281), not in the
    dispatch table. *)
Definition update_angle (val : option R) : M unit :=
  match val with
  | None => raise TypeError
  | Some val => s ← get_self; assign (set_angle (val * angle_scale s))
  end.

Definition update_throttle (val : option R) : M unit :=
  match val with
  | None => raise TypeError
  | Some val =>
      s ← get_self;
      assign (set_throttle (val * throttle_scale s * y_axis_direction s))
  end.

(** [toggle_recording] (lines 283-286), not in the dispatch table. *)
Definition toggle_recording (val : option R) : M unit :=
  if py_eq val 1 then
    s ← get_self;
    '(x, c) ← lift (next (recording_toggle s));
    assign (set_recording_toggle c);;
    assign (set_recording x)
  else mret tt.

(** [start_recording] and [stop_recording] (lines 288-294). *)
Definition start_recording (val : option R) : M unit :=
  if py_eq val 1 then assign (set_recording true) else mret tt.

Definition stop_recording (val : option R) : M unit :=
  if py_eq val 1 then assign (set_recording false) else mret tt.

(** [toggle_drive_mode] (lines 296-299), not in the dispatch table. *)
Definition toggle_drive_mode (val : option R) : M unit :=
  if py_eq val 1 then
    s ← get_self;
    '(x, c) ← lift (next (drive_mode_toggle s));
    assign (set_drive_mode_toggle c);;
    assign (set_drive_mode x)
  else mret tt.

(** [set_drive_mode_manual] (lines 301-303). *)
Definition set_drive_mode_manual (val : option R) : M unit :=
  if py_eq val 1 then assign (set_drive_mode "user") else mret tt.

(** [toggle_drive_mode_autonomous] (lines 305-311). *)
Definition toggle_drive_mode_autonomous (val : option R) : M unit :=
  if py_eq val 1 then
    s ← get_self;
    (if String.eqb (drive_mode s) "user"
     then assign (set_drive_mode_autonomous_toggle
                    (cycle_of ["local_angle"; "local"]))
     else mret tt);;
    s ← get_self;
    '(x, c) ← lift (next (drive_mode_autonomous_toggle s));
    assign (set_drive_mode_autonomous_toggle c);;
    assign (set_drive_mode x)
  else mret tt.

(** The four scale handlers (lines 313-331). *)
Definition increment_angle_scale (val : option R) : M unit :=
  if py_eq val 1 then
    s ← get_self;
    assign (set_angle_scale (angle_scale s + angle_scale_increment s))
  else mret tt.

Definition decrement_angle_scale (val : option R) : M unit :=
  if py_eq val 1 then
    s ← get_self;
    assign (set_angle_scale (angle_scale s - angle_scale_increment s))
  else mret tt.

Definition increment_throttle_scale (val : option R) : M unit :=
  if py_eq val 1 then
    s ← get_self;
    assign (set_throttle_scale (throttle_scale s + throttle_scale_increment s))
  else mret tt.

Definition decrement_throttle_scale (val : option R) : M unit :=
  if py_eq val 1 then
    s ← get_self;
    assign (set_throttle_scale (throttle_scale s - throttle_scale_increment s))
  else mret tt.

(** [self.func_map] (lines 130-141): the dispatch table. *)
Definition func_map : list (string * (option R -> M unit)) :=
  [ ("LEFT_STICK_X", update_stick_x_map);
    ("LEFT_STICK_Y", update_stick_y_map);
    ("X", start_recording);
    ("Y", stop_recording);
    ("B", set_drive_mode_manual);
    ("A", toggle_drive_mode_autonomous);
    ("PAD_RIGHT", increment_angle_scale);
    ("PAD_LEFT", decrement_angle_scale);
    ("PAD_UP", increment_throttle_scale);
    ("PAD_DOWN", decrement_throttle_scale) ].

(** [d.get(key)] on a dictionary literal whose keys are strings; the key
    [None] is in none. *)
Fixpoint dict_get {V : Type} (d : list (string * V)) (key : option string)
    : option V :=
  match d with
  | [] => None
  | (k, x) :: rest =>
      match key with
      | Some k' => if String.eqb k k' then Some x else dict_get rest key
      | None => None
      end
  end.

(** *** BluetoothGameController: reading and dispatching *)

(** [self.btn_map.get(code)]; [btn_map] is [None] when the configuration
    has no button map. *)
Definition btn_map_get (code : Z) : M (option string) :=
  s ← get_self;
  match btn_map s with
  | None => raise AttributeError
  | Some d => mret (d !! code)
  end.

(** [read_loop] (lines 151-169). [fuel] bounds the lookups of the
    reconnection. *)
Definition read_loop (fuel : nat) : M (option string * option R) :=
  try_except
    (event ← next_event;
     btn ← btn_map_get (code event);
     let val := IZR (value event) in
     val ← (if (type event =? EV_ABS)%Z
            then s ← get_self;
                 lift (py_div val (IZR (joystick_max_value s)))
            else mret val);
     mret (btn, Some val))
    is_OSError
    (time_sleep 0.1;;
     s ← get_self;
     load_device fuel (device_search_term s);;
     mret (None, None)).

(** [update_state_from_loop] (lines 172-184). *)
Definition update_state_from_loop (fuel : nat) : M unit :=
  '(btn, val) ← read_loop fuel;
  s ← get_self;
  assign (set_state (<[btn := val]> (state s)));;
  match dict_get func_map btn with
  | Some func => func val
  | None => mret tt
  end.

(** [update] (lines 186-188): the endless loop, cut after [fuel] steps. *)
Fixpoint update (fuel : nat) : M unit :=
  match fuel with
  | O => out_of_fuel
  | S fuel' => update_state_from_loop fuel';; update fuel'
  end.

(** [run], [run_threaded] and [shutdown] (lines 190-199). *)
Definition run_threaded : M (R * R * string * bool) :=
  s ← get_self;
  mret (angle s, throttle s, drive_mode s, recording s).

Definition run (fuel : nat) : M (R * R * string * bool) :=
  update_state_from_loop fuel;;
  s ← get_self;
  mret (angle s, throttle s, drive_mode s, recording s).

Definition shutdown : M unit :=
  assign (set_running false);;
  time_sleep 0.1.

(** *** BluetoothGameController: construction *)

(** [a or b] for an optional string [a]: [None] and the empty string are
    false. *)
Definition py_or (a : option string) (b : pyval) : pyval :=
  match a with
  | Some EmptyString => b
  | Some s => PyStr s
  | None => b
  end.

(** [__init__] (lines 79-141) on the freshly allocated object, whose
    attributes are all assigned here. [cfg] is what [_load_config] returned
    for the configuration path; the dispatch table is [func_map]. *)
Definition __init__ (event_input_device : option InputDevice)
    (cfg : config_t) (device_search_term_arg : option string)
    (verbose_arg : bool) (fuel : nat) : M unit :=
  assign (set_device None);;
  assign (set_verbose verbose_arg);;
  assign (set_running false);;
  assign (set_state ∅);;
  assign (set_angle 0.0);;
  assign (set_throttle 0.0);;
  assign (set_u 0);;
  assign (set_v 0);;
  assign (set_angle_scale 1.0);;
  assign (set_angle_scale_increment 0.05);;
  assign (set_throttle_scale 1.0);;
  assign (set_throttle_scale_increment 0.05);;
  assign (set_y_axis_direction (-1));;
  assign (set_drive_mode_toggle (cycle_of ["user"; "local_angle"; "local"]));;
  assign (set_drive_mode_autonomous_toggle
            (cycle_of ["local_angle"; "local"]));;
  s ← get_self;
  '(x, c) ← lift (next (drive_mode_toggle s));
  assign (set_drive_mode_toggle c);;
  assign (set_drive_mode x);;
  assign (set_recording_toggle (cycle_of [true; false]));;
  s ← get_self;
  '(x, c) ← lift (next (recording_toggle s));
  assign (set_recording_toggle c);;
  assign (set_recording x);;
  assign (set_config cfg);;
  s ← get_self;
  assign (set_btn_map (cfg_button_map (config s)));;
  s ← get_self;
  assign (set_joystick_max_value
            (default 1280%Z (cfg_joystick_max_value (config s))));;
  s ← get_self;
  assign (set_device_search_term
            (py_or device_search_term_arg
               (default (PyInt 1280) (cfg_device_search_term (config s)))));;
  match event_input_device with
  | None => s ← get_self; load_device fuel (device_search_term s)
  | Some d => assign (set_device (Some d))
  end.

(** *** BluetoothGameController: the profiler *)

#[global] Instance Rle_rel_dec : RelDecision Rle := Rle_dec.

#[local] Instance Rle_transitive : Transitive Rle := Rle_trans.

#[local] Instance Rle_total : Total Rle.
Proof. intros x y. destruct (Rle_or_lt x y); [left | right]; lra. Qed.

(** [sum(l)]. *)
Definition sum (l : list R) : R := fold_left Rplus l 0.

(** [l[-1]]. *)
Definition py_last (l : list R) : outcome R :=
  match last l with
  | Some x => Ok x
  | None => Raise IndexError
  end.

(** The [while True] loop of [profile] (lines 211-223); [fuel] bounds its
    iterations. *)
Fixpoint profile_loop (fuel : nat) (event_total : Z) (start_time : R)
    (results : list R) : M (list R) :=
  match fuel with
  | O => out_of_fuel
  | S fuel' =>
      read_loop fuel';;
      let event_total := (event_total + 1)%Z in
      if (event_total >? 1000)%Z then
        end_time ← time_time;
        let seconds_elapsed := end_time - start_time in
        events_per_second ← lift (py_div (IZR event_total) seconds_elapsed);
        let results := (results ++ [events_per_second])%list in
        start_time ← time_time;
        let event_total := 0%Z in
        if (9 <? length results)%nat then mret results
        else profile_loop fuel' event_total start_time results
      else profile_loop fuel' event_total start_time results
  end.

(** [profile] (lines 201-231); the printed maximum and average are
    returned. *)
Definition profile (fuel : nat) : M (R * R) :=
  start_time ← time_time;
  results ← profile_loop fuel 0 start_time [];
  let sorted_results := merge_sort Rle results in
  let best_5_results := drop 5 sorted_results in
  max ← lift (py_last best_5_results);
  average ← lift (py_div (sum best_5_results)
                         (INR (length best_5_results)));
  mret (max, average).

(** ** Scenarios *)

(** [n] presses of one button: its handler called [n] times with 1. *)
Fixpoint presses (n : nat) (handler : option R -> M unit) : M unit :=
  match n with
  | O => mret tt
  | S n' => handler (Some 1);; presses n' handler
  end.

(** The control state a consumer depends on, with the stored stick
    position. *)
Definition control (s : controller)
    : R * R * string * bool * R * R * R * R :=
  (angle_scale s, throttle_scale s, drive_mode s, recording s,
   angle s, throttle s, u s, v s).

(** A device, a configuration and a world to run examples in. The button
    codes are examples, not those of a particular controller. *)
Definition pad : InputDevice :=
  {| path := "/dev/input/event3"; name := "Nintendo Wii Remote Pro Controller" |}.

Definition pad_buttons : gmap Z string :=
  list_to_map [(0%Z, "LEFT_STICK_X"); (1%Z, "LEFT_STICK_Y");
               (304%Z, "B"); (305%Z, "A")].

Definition pad_config : config_t :=
  {| cfg_button_map := Some pad_buttons;
     cfg_joystick_max_value := Some 1280%Z;
     cfg_device_search_term := Some (PyStr "Nintendo") |}.

(** The object before [__init__] ran. *)
Definition blank : controller :=
  {| device := None; verbose := false; running := false; state := ∅;
     angle := 0; throttle := 0; u := 0; v := 0;
     angle_scale := 0; angle_scale_increment := 0;
     throttle_scale := 0; throttle_scale_increment := 0;
     y_axis_direction := 0;
     drive_mode_toggle := []; drive_mode_autonomous_toggle := [];
     drive_mode := ""; recording_toggle := []; recording := false;
     config := {| cfg_button_map := None; cfg_joystick_max_value := None;
                  cfg_device_search_term := None |};
     btn_map := None; joystick_max_value := 0; device_search_term := PyInt 0 |}.

(** A second device whose name matches "Nintendo" too. *)
Definition pad2 : InputDevice :=
  {| path := "/dev/input/event4"; name := "NINTENDO Switch Pro Controller" |}.

(** A world whose [k]-th enumeration finds [devices k], that delivers
    [events k] at the [k]-th read, and whose clock ticks once per
    reading. *)
Definition world_of (devices : nat -> list InputDevice)
    (events : nat -> option InputEvent) : world :=
  {| attached := devices; enumerations := 0;
     incoming := events; reads := 0;
     clock := fun k => INR k; clock_reads := 0; slept := [] |}.

(** The controller built on [pad], handed over as [event_input_device]. *)
Definition started (w : world) : machine :=
  snd (__init__ (Some pad) pad_config None false 0
         {| self := blank; os := w |}).

(** The autonomous cycle and the drive mode in step: [phase true] after a
    press that gave "local_angle", [phase false] after one that gave
    "local". *)
Definition phase (b : bool) (s : controller) : Prop :=
  if b
  then drive_mode s = "local_angle" /\
       drive_mode_autonomous_toggle s = ["local"; "local_angle"]
  else drive_mode s = "local" /\
       drive_mode_autonomous_toggle s = ["local_angle"; "local"].

(** *** Device lookup, in the words of the specification *)

(** The name contains the search term, case-insensitively. *)
Definition contains_ci (device_name term : string) : Prop :=
  exists pre post : string,
    lower device_name = pre +:+ lower term +:+ post.

(** The attached devices whose names match the term, in enumeration
    order. *)
Definition matching (term : string) (devices : list InputDevice)
    : list InputDevice :=
  List.filter (fun device => str_in (lower term) (lower (name device))) devices.

(** The world after [k] lookups that found nothing, each followed by its
    three-second sleep. *)
Definition missed (k : nat) (w : world) : world :=
  {| attached := attached w; enumerations := enumerations w + k;
     incoming := incoming w; reads := reads w; clock := clock w;
     clock_reads := clock_reads w; slept := replicate k 3 ++ slept w |}.

(** The world after the read that failed and the short sleep of the
    handler. *)
Definition lost (w : world) : world :=
  set_slept (0.1 :: slept w) (set_reads (S (reads w)) w).

(** The value [read_loop] returns for an event: axis values are scaled. *)
Definition decoded (s : controller) (event : InputEvent) : R :=
  if (type event =? EV_ABS)%Z
  then IZR (value event) / IZR (joystick_max_value s)
  else IZR (value event).

(** The object as [__init__] leaves it before it looks for the device. *)
Definition at_rest (cfg : config_t) (device_search_term_arg : option string)
    (verbose_arg : bool) : controller :=
  {| device := None; verbose := verbose_arg; running := false; state := ∅;
     angle := 0.0; throttle := 0.0; u := 0; v := 0;
     angle_scale := 1.0; angle_scale_increment := 0.05;
     throttle_scale := 1.0; throttle_scale_increment := 0.05;
     y_axis_direction := -1;
     drive_mode_toggle := ["local_angle"; "local"; "user"];
     drive_mode_autonomous_toggle := ["local_angle"; "local"];
     drive_mode := "user";
     recording_toggle := [false; true];
     recording := true;
     config := cfg;
     btn_map := cfg_button_map cfg;
     joystick_max_value := default 1280%Z (cfg_joystick_max_value cfg);
     device_search_term :=
       py_or device_search_term_arg
         (default (PyInt 1280) (cfg_device_search_term cfg)) |}.

(** The pad is off for two enumerations and back at the third. *)
Definition reappearing (k : nat) : list InputDevice :=
  if (k <? 2)%nat then [] else [pad].

(** A key event of a button that the example configuration does not map. *)
Definition unmapped_key : InputEvent := {| type := 1; code := 999; value := 1 |}.

(** The controller started on the pad while a second matching device is
    attached and the pad stops answering. *)
Definition ambiguous_start : machine :=
  started (world_of (fun _ => [pad; pad2]) (fun _ => None)).

(** *** Profiling *)

(** The world after [r] more reads and [c] more clock readings. *)
Definition advanced (r c : nat) (w : world) : world :=
  {| attached := attached w; enumerations := enumerations w;
     incoming := incoming w; reads := reads w + r; clock := clock w;
     clock_reads := clock_reads w + c; slept := slept w |}.

(** The device is connected and every read delivers an event that decodes
    without error. *)
Definition answering (m : machine) : Prop :=
  (exists d0, device (self m) = Some d0) /\
  (exists bm, btn_map (self m) = Some bm) /\
  (forall k, exists event,
      incoming (os m) k = Some event /\
      (type event <> EV_ABS \/ joystick_max_value (self m) <> 0%Z)).

(** The wall clock goes forward between two readings. *)
Definition ticking (w : world) : Prop :=
  forall k, clock w k < clock w (S k).

(** The rates of [b] batches in a row, the first one started at [start]
    with [c] clock readings done: a batch reads the clock twice, for its end
    and for the start of the next. *)
Fixpoint batch_rates (b : nat) (clk : nat -> R) (c : nat) (start : R)
    : list R :=
  match b with
  | O => []
  | S b' =>
      1001 / (clk c - start) :: batch_rates b' clk (c + 2) (clk (S c))
  end.

(** The controller started on the pad, which delivers one unmapped key
    event per read. *)
Definition key_stream : machine :=
  started (world_of (fun _ => [pad]) (fun _ => Some unmapped_key)).

(** ** Further scenarios *)

(** [x] held to the interval from [lo] to [hi]. *)
Definition clamp (lo hi x : R) : R := Rmax lo (Rmin x hi).

(** An axis event of the example pad: the left stick half way to the
    left. *)
Definition half_left : InputEvent := {| type := 3; code := 0; value := -640 |}.

(** The controller started on the pad, which delivers [half_left] at every
    read. *)
Definition axis_stream : machine :=
  started (world_of (fun _ => [pad]) (fun _ => Some half_left)).

(** What holds of the object from construction on: the flags and constants
    no handler assigns, and a drive mode that is "user" or in step with the
    autonomous cycle. *)
Definition consistent (s : controller) : Prop :=
  running s = false /\
  y_axis_direction s = -1 /\
  angle_scale_increment s = 0.05 /\
  throttle_scale_increment s = 0.05 /\
  (drive_mode s = "user" \/ phase true s \/ phase false s).

(** The attributes that say where events come from and how they are
    decoded. *)
Definition wiring (s : controller)
    : option InputDevice * option (gmap Z string) * Z * pyval * config_t
      * bool :=
  (device s, btn_map s, joystick_max_value s, device_search_term s,
   config s, verbose s).

(** The names the dispatch table has a handler for. *)
Definition handled : list string :=
  ["LEFT_STICK_X"; "LEFT_STICK_Y"; "X"; "Y"; "B"; "A";
   "PAD_RIGHT"; "PAD_LEFT"; "PAD_UP"; "PAD_DOWN"].

(** A button map with a name that has no handler, and the controller of
    [key_stream] wired to it. *)
Definition spare_buttons : gmap Z string := {[ 999%Z := "HOME" ]}.

Definition home_stream : machine :=
  {| self := set_btn_map (Some spare_buttons) (self key_stream);
     os := os key_stream |}.

(** The controller started on the pad in a world whose clock stands still
    and whose device delivers a key event at every read. *)
Definition frozen_clock : machine :=
  started {| attached := fun _ => [pad]; enumerations := 0;
             incoming := fun _ => Some unmapped_key; reads := 0;
             clock := fun _ => 0; clock_reads := 0; slept := [] |}.

(** A device whose name does not match "Nintendo". *)
Definition keyboard : InputDevice :=
  {| path := "/dev/input/event0"; name := "AT Translated Set 2 keyboard" |}.

(** The point of the disc that the mapper sends to the point [(x, y)] of
    the square. *)
Definition from_square (x y : R) : R * R :=
  (x * sqrt (1 - y * y / 2), y * sqrt (1 - x * x / 2)).


(** The machine with [self.running] and the sleep log blotted out. *)
Definition veil (m : machine) : machine :=
  {| self := set_running false (self m); os := set_slept [] (os m) |}.

(** A method that reads neither [self.running] nor the sleep log: on two
    machines that differ in nothing else it has the same outcome and leaves
    machines that differ in nothing else. *)
Definition blind {A : Type} (c : M A) : Prop :=
  forall m m' : machine,
    veil m = veil m' ->
    fst (c m) = fst (c m') /\ veil (snd (c m)) = veil (snd (c m')).
(** ** Proof automation *)

(** Unfolding the plumbing of [M]. *)
Ltac run_M :=
  cbv [mbind M_bind mret M_ret assign get_self lift raise effect out_of_fuel];
  cbn.

(** The handlers of the dispatch table, one goal each. *)
Ltac handler_cases H :=
  cbn [dict_get func_map] in H;
  repeat match goal with
         | H' : (if String.eqb ?a ?b then _ else _) = Some _ |- _ =>
             destruct (String.eqb a b); [injection H' as <- |]
         | H' : None = Some _ |- _ => discriminate H'
         end.

(** * Proofs *)

(** ** Facts about the mapper *)

Lemma math_sqrt_nonneg (x : R) : 0 <= x -> math_sqrt x = Ok (sqrt x).
Proof.
  intros Hx. unfold math_sqrt. destruct (Rlt_dec x 0) as [Hlt|_]; [lra|reflexivity].
Qed.

Lemma max0_nonneg (x : R) : 0 <= max0 x.
Proof. unfold max0. apply Rmax_r. Qed.

Lemma math_sqrt_max0 (x : R) : math_sqrt (max0 x) = Ok (sqrt (max0 x)).
Proof. apply math_sqrt_nonneg, max0_nonneg. Qed.

(** The method never raises: it computes [to_square]. *)
Lemma circ_to_square_eq (u v : R) : circ_to_square u v = Ok (to_square u v).
Proof.
  unfold circ_to_square.
  rewrite (math_sqrt_nonneg 2) by lra. cbn [mbind outcome_bind].
  rewrite !math_sqrt_max0. reflexivity.
Qed.

Lemma sqrt2_sqr : sqrt 2 * sqrt 2 = 2.
Proof. apply sqrt_sqrt. lra. Qed.

Lemma sqrt_Rmax0_sqr (r : R) : 0 <= r -> sqrt (Rmax r 0) * sqrt (Rmax r 0) = r.
Proof. intros Hr. rewrite Rmax_left by exact Hr. apply sqrt_sqrt, Hr. Qed.

(** The arithmetic core of the range property: with [a] and [b] the two
    square roots of one coordinate, half their difference is at most 1
    inside the unit disc. *)
Lemma half_diff_le_1 (s p q a b : R) :
  s * s = 2 -> 0 <= a -> 0 <= b ->
  a * a = 2 + 2 * p * s + p*p - q*q ->
  b * b = 2 - 2 * p * s + p*p - q*q ->
  p*p + q*q <= 1 ->
  0.5 * (a - b) <= 1.
Proof.
  intros Hs Ha Hb Haa Hbb Hdisc.
  destruct (Rle_dec (a - b) 2) as [Hle|Hgt]; [lra|].
  exfalso. apply Rnot_le_lt in Hgt.
  assert (H1 : 4 + 4 * b + b * b < a * a) by nra.
  assert (H2 : b < p * s - 1) by lra.
  assert (H3 : b * b < (p * s - 1) * (p * s - 1)) by nra.
  replace ((p * s - 1) * (p * s - 1))
    with (p * p * (s * s) - 2 * p * s + 1) in H3 by ring.
  rewrite Hs in H3. lra.
Qed.

(** Inside the unit disc no radicand is clamped. *)
Lemma radicand_nonneg (s p q : R) :
  s * s = 2 -> p*p + q*q <= 1 -> 0 <= 2 + 2 * p * s + p*p - q*q.
Proof.
  intros Hs Hdisc.
  pose proof (Rle_0_sqr (p * s + 1)) as H. unfold Rsqr in H.
  replace ((p * s + 1) * (p * s + 1))
    with (p * p * (s * s) + 2 * p * s + 1) in H by ring.
  rewrite Hs in H. lra.
Qed.

Lemma coordinate_range (p q : R) :
  p*p + q*q <= 1 ->
  -1 <= 0.5 * ( sqrt (Rmax (2 + 2 * p * sqrt 2 + p*p - q*q) 0)
              - sqrt (Rmax (2 - 2 * p * sqrt 2 + p*p - q*q) 0)) <= 1.
Proof.
  intros Hdisc.
  pose proof sqrt2_sqr as Hs.
  assert (HA : 0 <= 2 + 2 * p * sqrt 2 + p*p - q*q)
    by (apply radicand_nonneg; assumption).
  assert (HB : 0 <= 2 - 2 * p * sqrt 2 + p*p - q*q).
  { replace (2 - 2 * p * sqrt 2 + p*p - q*q)
      with (2 + 2 * (- p) * sqrt 2 + (- p)*(- p) - q*q) by ring.
    apply radicand_nonneg; [assumption | nra]. }
  pose proof (sqrt_Rmax0_sqr _ HA) as Ha2.
  pose proof (sqrt_Rmax0_sqr _ HB) as Hb2.
  pose proof (sqrt_pos (Rmax (2 + 2 * p * sqrt 2 + p*p - q*q) 0)) as Ha.
  pose proof (sqrt_pos (Rmax (2 - 2 * p * sqrt 2 + p*p - q*q) 0)) as Hb.
  set (a := sqrt (Rmax (2 + 2 * p * sqrt 2 + p*p - q*q) 0)) in *.
  set (b := sqrt (Rmax (2 - 2 * p * sqrt 2 + p*p - q*q) 0)) in *.
  split.
  - assert (H : 0.5 * (b - a) <= 1).
    { apply (half_diff_le_1 (sqrt 2) (- p) q); try assumption; nra. }
    lra.
  - apply (half_diff_le_1 (sqrt 2) p q); assumption.
Qed.

Lemma to_square_range (u v : R) :
  u*u + v*v <= 1 ->
  -1 <= fst (to_square u v) <= 1 /\ -1 <= snd (to_square u v) <= 1.
Proof.
  intros Hdisc. unfold to_square. cbn [fst snd]. split.
  - apply coordinate_range. exact Hdisc.
  - replace (2 + 2 * v * sqrt 2 - u*u + v*v)
      with (2 + 2 * v * sqrt 2 + v*v - u*u) by ring.
    replace (2 - 2 * v * sqrt 2 - u*u + v*v)
      with (2 - 2 * v * sqrt 2 + v*v - u*u) by ring.
    apply coordinate_range. lra.
Qed.

Lemma to_square_origin : to_square 0 0 = (0, 0).
Proof.
  unfold to_square.
  replace (2 + 2 * 0 * sqrt 2 + 0*0 - 0*0) with 2 by ring.
  replace (2 - 2 * 0 * sqrt 2 + 0*0 - 0*0) with 2 by ring.
  replace (2 + 2 * 0 * sqrt 2 - 0*0 + 0*0) with 2 by ring.
  replace (2 - 2 * 0 * sqrt 2 - 0*0 + 0*0) with 2 by ring.
  f_equal; ring.
Qed.

Lemma to_square_odd (u v : R) :
  to_square (- u) (- v) = (- fst (to_square u v), - snd (to_square u v)).
Proof.
  unfold to_square. cbn [fst snd].
  replace (2 + 2 * - u * sqrt 2 + - u * - u - - v * - v)
    with (2 - 2 * u * sqrt 2 + u*u - v*v) by ring.
  replace (2 - 2 * - u * sqrt 2 + - u * - u - - v * - v)
    with (2 + 2 * u * sqrt 2 + u*u - v*v) by ring.
  replace (2 + 2 * - v * sqrt 2 - - u * - u + - v * - v)
    with (2 - 2 * v * sqrt 2 - u*u + v*v) by ring.
  replace (2 - 2 * - v * sqrt 2 - - u * - u + - v * - v)
    with (2 + 2 * v * sqrt 2 - u*u + v*v) by ring.
  f_equal; ring.
Qed.

(** C2. [circ_to_square] returns for all reals (the clamped radicands keep
    [math.sqrt] in its domain); inside the closed unit disc both results lie
    in [-1, 1]; the origin goes to the origin. [to_square] of the plotting
    script computes the same pair. *)
Theorem circ_to_square_range (u v : R) :
  circ_to_square 0 0 = Ok (0, 0) /\
  exists x y,
    circ_to_square u v = Ok (x, y) /\
    to_square u v = (x, y) /\
    (u * u + v * v <= 1 -> -1 <= x <= 1 /\ -1 <= y <= 1).
Proof.
  split.
  - rewrite circ_to_square_eq, to_square_origin. reflexivity.
  - exists (fst (to_square u v)), (snd (to_square u v)).
    split; [rewrite circ_to_square_eq; reflexivity|].
    split; [reflexivity|].
    apply to_square_range.
Qed.

Lemma circ_to_square_range_witness :
  exists x y,
    circ_to_square 0.6 0.8 = Ok (x, y) /\
    -1 <= x <= 1 /\ -1 <= y <= 1.
Proof.
  destruct (circ_to_square_range 0.6 0.8) as [_ (x & y & Hrun & _ & Hrange)].
  exists x, y. split; [exact Hrun|]. apply Hrange. lra.
Defined.

(** C3. The mapper is odd: negating both inputs negates both outputs. *)
Theorem circ_to_square_odd (u v : R) :
  exists x y,
    circ_to_square u v = Ok (x, y) /\
    circ_to_square (- u) (- v) = Ok (- x, - y).
Proof.
  exists (fst (to_square u v)), (snd (to_square u v)).
  split; [rewrite circ_to_square_eq; reflexivity|].
  rewrite circ_to_square_eq, to_square_odd. reflexivity.
Qed.

#[local] Arguments circ_to_square : simpl never.
#[local] Arguments to_square : simpl never.

(** ** The handlers *)

Lemma update_stick_x_map_eq (m : machine) (val : R) :
  update_stick_x_map (Some val) m =
  (Ok tt,
   {| self :=
        let xy := to_square val (v (self m)) in
        set_throttle
          (snd xy * throttle_scale (self m) * y_axis_direction (self m))
          (set_angle (fst xy * angle_scale (self m))
             (set_u val (self m)));
      os := os m |}).
Proof.
  unfold update_stick_x_map. run_M.
  rewrite circ_to_square_eq. run_M.
  destruct (to_square val (v (self m))) as [x y]. reflexivity.
Qed.

Lemma update_stick_y_map_eq (m : machine) (val : R) :
  update_stick_y_map (Some val) m =
  (Ok tt,
   {| self :=
        let xy := to_square (u (self m)) val in
        set_throttle
          (snd xy * throttle_scale (self m) * y_axis_direction (self m))
          (set_angle (fst xy * angle_scale (self m))
             (set_v val (self m)));
      os := os m |}).
Proof.
  unfold update_stick_y_map. run_M.
  rewrite circ_to_square_eq. run_M.
  destruct (to_square (u (self m)) val) as [x y]. reflexivity.
Qed.

(** C1. The LEFT_STICK_X handler stores [val] as [u] and recomputes angle
    and throttle from [circ_to_square] of the new [u] and the stored [v],
    which it keeps; the LEFT_STICK_Y handler stores [val] as [v] and uses
    the stored [u]. The throttle sign is the object's [y_axis_direction],
    which [__init__] sets to -1. *)
Theorem stick_handlers_recompute (m : machine) (val : R) :
  y_axis_direction (self m) = -1 ->
  dict_get func_map (Some "LEFT_STICK_X") = Some update_stick_x_map /\
  dict_get func_map (Some "LEFT_STICK_Y") = Some update_stick_y_map /\
  (exists x y m',
      circ_to_square val (v (self m)) = Ok (x, y) /\
      update_stick_x_map (Some val) m = (Ok tt, m') /\
      u (self m') = val /\
      v (self m') = v (self m) /\
      angle (self m') = x * angle_scale (self m) /\
      throttle (self m') = y * throttle_scale (self m) * (-1)) /\
  (exists x y m',
      circ_to_square (u (self m)) val = Ok (x, y) /\
      update_stick_y_map (Some val) m = (Ok tt, m') /\
      v (self m') = val /\
      u (self m') = u (self m) /\
      angle (self m') = x * angle_scale (self m) /\
      throttle (self m') = y * throttle_scale (self m) * (-1)).
Proof.
  intros Hdir. split; [reflexivity|]. split; [reflexivity|]. split.
  - exists (fst (to_square val (v (self m)))), (snd (to_square val (v (self m)))).
    eexists. split.
    { rewrite circ_to_square_eq. reflexivity. }
    split; [apply update_stick_x_map_eq|].
    cbn. rewrite Hdir. repeat split; reflexivity.
  - exists (fst (to_square (u (self m)) val)), (snd (to_square (u (self m)) val)).
    eexists. split.
    { rewrite circ_to_square_eq. reflexivity. }
    split; [apply update_stick_y_map_eq|].
    cbn. rewrite Hdir. repeat split; reflexivity.
Qed.

Lemma started_self (w : world) :
  self (started w) =
  {| device := Some pad; verbose := false; running := false; state := ∅;
     angle := 0.0; throttle := 0.0; u := 0; v := 0;
     angle_scale := 1.0; angle_scale_increment := 0.05;
     throttle_scale := 1.0; throttle_scale_increment := 0.05;
     y_axis_direction := -1;
     drive_mode_toggle := ["local_angle"; "local"; "user"];
     drive_mode_autonomous_toggle := ["local_angle"; "local"];
     drive_mode := "user"; recording_toggle := [false; true];
     recording := true;
     config := pad_config; btn_map := Some pad_buttons;
     joystick_max_value := 1280; device_search_term := PyStr "Nintendo" |}.
Proof. reflexivity. Qed.

Lemma stick_handlers_recompute_witness :
  y_axis_direction (self (started (world_of (fun _ => [pad]) (fun _ => None)))) = -1 /\
  exists x y m',
    circ_to_square 0.9 (v (self (started (world_of (fun _ => [pad]) (fun _ => None)))))
      = Ok (x, y) /\
    update_stick_x_map (Some 0.9) (started (world_of (fun _ => [pad]) (fun _ => None)))
      = (Ok tt, m') /\
    u (self m') = 0.9 /\
    v (self m') = 0 /\
    angle (self m') = x * 1.0 /\
    throttle (self m') = y * 1.0 * (-1).
Proof.
  split; [reflexivity|].
  apply (stick_handlers_recompute
           (started (world_of (fun _ => [pad]) (fun _ => None))) 0.9).
  reflexivity.
Defined.

(** ** The button handlers *)

Lemma py_eq_one : py_eq (Some 1) 1 = true.
Proof. unfold py_eq. destruct (Req_dec_T 1 1); congruence. Qed.

Lemma py_eq_other (val : option R) : val <> Some 1 -> py_eq val 1 = false.
Proof.
  intros Hne. destruct val as [r|]; cbn; [|reflexivity].
  destruct (Req_dec_T r 1) as [->|_]; [contradiction|reflexivity].
Qed.

(** A press on the autonomous toggle in manual mode. *)
Lemma autonomous_from_user (m : machine) :
  drive_mode (self m) = "user" ->
  toggle_drive_mode_autonomous (Some 1) m =
  (Ok tt,
   {| self := set_drive_mode "local_angle"
                (set_drive_mode_autonomous_toggle ["local"; "local_angle"]
                   (set_drive_mode_autonomous_toggle ["local_angle"; "local"]
                      (self m)));
      os := os m |}).
Proof.
  intros Hmode. unfold toggle_drive_mode_autonomous.
  rewrite py_eq_one. run_M. rewrite Hmode. reflexivity.
Qed.

(** A press on the autonomous toggle in an autonomous mode. *)
Lemma autonomous_press_phase (b : bool) (m : machine) :
  phase b (self m) ->
  exists m', toggle_drive_mode_autonomous (Some 1) m = (Ok tt, m') /\
             phase (negb b) (self m').
Proof.
  intros Hphase. unfold toggle_drive_mode_autonomous.
  rewrite py_eq_one. run_M.
  destruct b; destruct Hphase as [Hmode Hcycle];
    rewrite Hmode; cbn; rewrite Hcycle; cbn;
    eexists; (split; [reflexivity|]); split; reflexivity.
Qed.

Lemma autonomous_presses_phase (n : nat) :
  forall (b : bool) (m : machine),
    phase b (self m) ->
    exists m', presses n toggle_drive_mode_autonomous m = (Ok tt, m') /\
               phase (if Nat.even n then b else negb b) (self m').
Proof.
  induction n as [|n IH]; intros b m Hphase.
  - exists m. split; [reflexivity|exact Hphase].
  - destruct (autonomous_press_phase b m Hphase) as (m1 & Hpress & Hphase1).
    destruct (IH (negb b) m1 Hphase1) as (m2 & Hrest & Hphase2).
    exists m2. split.
    + cbn [presses]. unfold mbind, M_bind. rewrite Hpress. exact Hrest.
    + rewrite Nat.even_succ, <- Nat.negb_even.
      destruct (Nat.even n); cbn [negb] in *;
        [exact Hphase2 | rewrite negb_involutive in Hphase2; exact Hphase2].
Qed.

(** C4. Start recording, stop recording and set manual drive mode are
    idempotent on a press; every button handler ignores a value other than
    1; the autonomous toggle advances on each press, and from manual mode
    its presses give "local_angle", "local", "local_angle", ... *)
Theorem edge_triggering (m : machine) :
  (exists m1, start_recording (Some 1) m = (Ok tt, m1) /\
              start_recording (Some 1) m1 = (Ok tt, m1) /\
              recording (self m1) = true) /\
  (exists m1, stop_recording (Some 1) m = (Ok tt, m1) /\
              stop_recording (Some 1) m1 = (Ok tt, m1) /\
              recording (self m1) = false) /\
  (exists m1, set_drive_mode_manual (Some 1) m = (Ok tt, m1) /\
              set_drive_mode_manual (Some 1) m1 = (Ok tt, m1) /\
              drive_mode (self m1) = "user") /\
  (forall val : option R,
      val <> Some 1 ->
      Forall (fun handler => handler val m = (Ok tt, m))
        [start_recording; stop_recording; set_drive_mode_manual;
         toggle_drive_mode_autonomous;
         increment_angle_scale; decrement_angle_scale;
         increment_throttle_scale; decrement_throttle_scale;
         toggle_recording; toggle_drive_mode]) /\
  (drive_mode (self m) = "user" ->
   forall n : nat,
     exists m', presses (S n) toggle_drive_mode_autonomous m = (Ok tt, m') /\
                drive_mode (self m') =
                  (if Nat.even n then "local_angle" else "local")).
Proof.
  split; [|split; [|split; [|split]]].
  - eexists. unfold start_recording. rewrite py_eq_one.
    split; [reflexivity|]. split; reflexivity.
  - eexists. unfold stop_recording. rewrite py_eq_one.
    split; [reflexivity|]. split; reflexivity.
  - eexists. unfold set_drive_mode_manual. rewrite py_eq_one.
    split; [reflexivity|]. split; reflexivity.
  - intros val Hval. pose proof (py_eq_other val Hval) as Hne.
    repeat constructor;
      cbv [start_recording stop_recording set_drive_mode_manual
           toggle_drive_mode_autonomous increment_angle_scale
           decrement_angle_scale increment_throttle_scale
           decrement_throttle_scale toggle_recording toggle_drive_mode];
      rewrite Hne; reflexivity.
  - intros Hmode n.
    pose proof (autonomous_from_user m Hmode) as Hfirst.
    set (m1 := {| self := set_drive_mode "local_angle"
                   (set_drive_mode_autonomous_toggle ["local"; "local_angle"]
                      (set_drive_mode_autonomous_toggle
                         ["local_angle"; "local"] (self m)));
                  os := os m |}) in *.
    assert (Hphase : phase true (self m1)) by (split; reflexivity).
    destruct (autonomous_presses_phase n true m1 Hphase) as (m2 & Hrest & Hend).
    exists m2. split.
    + cbn [presses]. unfold mbind, M_bind. rewrite Hfirst. exact Hrest.
    + destruct (Nat.even n); cbn [negb] in Hend; apply Hend.
Qed.

Lemma edge_triggering_witness :
  stop_recording (Some 0) (started (world_of (fun _ => [pad]) (fun _ => None)))
    = (Ok tt, started (world_of (fun _ => [pad]) (fun _ => None))) /\
  exists m',
    presses 3 toggle_drive_mode_autonomous
      (started (world_of (fun _ => [pad]) (fun _ => None))) = (Ok tt, m') /\
    drive_mode (self m') = "local_angle".
Proof.
  destruct (edge_triggering (started (world_of (fun _ => [pad]) (fun _ => None))))
    as (_ & _ & _ & Hoff & Hcycle).
  split.
  - assert (Hval : Some 0 <> Some 1) by (intros H; inversion H; lra).
    pose proof (Hoff (Some 0) Hval) as Hall.
    inversion Hall as [|? ? _ Hrest]. inversion Hrest as [|? ? Hstop _].
    exact Hstop.
  - apply (Hcycle eq_refl 2%nat).
Defined.

(** C5. From manual mode a press on the autonomous toggle gives
    "local_angle", whatever the autonomous cycle held before. *)
Theorem autonomous_starts_with_local_angle (m : machine) :
  drive_mode (self m) = "user" ->
  dict_get func_map (Some "A") = Some toggle_drive_mode_autonomous /\
  exists m', toggle_drive_mode_autonomous (Some 1) m = (Ok tt, m') /\
             drive_mode (self m') = "local_angle" /\
             drive_mode (self m') <> "local".
Proof.
  intros Hmode. split; [reflexivity|].
  eexists. split; [apply autonomous_from_user, Hmode|].
  split; [reflexivity|]. cbn. discriminate.
Qed.

(** ** Looking a device up *)

Lemma append_String (c : ascii) (a post : string) :
  String c a +:+ post = String c (a +:+ post).
Proof. reflexivity. Qed.

Lemma prefix_spec (a b : string) :
  String.prefix a b = true <-> exists post, b = a +:+ post.
Proof.
  revert b. induction a as [|c a IH]; intros b.
  - split; [intros _; exists b; reflexivity | intros _; destruct b; reflexivity].
  - destruct b as [|c' b]; cbn [String.prefix].
    + split; [discriminate | intros [post H]; discriminate].
    + destruct (ascii_dec c c') as [->|Hne].
      * rewrite IH. split; intros [post H]; exists post.
        -- rewrite append_String, H. reflexivity.
        -- rewrite append_String in H. congruence.
      * split; [discriminate|]. intros [post H].
        rewrite append_String in H. congruence.
Qed.

(** [str_in] is the substring test. *)
Lemma str_in_spec (a b : string) :
  str_in a b = true <-> exists pre post, b = pre +:+ a +:+ post.
Proof.
  induction b as [|c b IH]; cbn [str_in]; rewrite orb_true_iff, prefix_spec.
  - split.
    + intros [[post H]|H]; [|discriminate]. exists "", post. exact H.
    + intros (pre & post & H). left. exists post.
      destruct pre; [exact H | discriminate].
  - rewrite IH. split.
    + intros [[post H]|(pre & post & H)].
      * exists "", post. exact H.
      * exists (String c pre), post. rewrite append_String, H. reflexivity.
    + intros (pre & post & H). destruct pre as [|c' pre].
      * left. exists post. exact H.
      * right. exists pre, post. rewrite append_String in H. congruence.
Qed.

Lemma matching_spec (term : string) (devices : list InputDevice)
    (d : InputDevice) :
  In d (matching term devices) <->
  In d devices /\ contains_ci (name d) term.
Proof.
  unfold matching, contains_ci. rewrite filter_In, str_in_spec. reflexivity.
Qed.

Lemma likely_matching (term : string) (devices : list InputDevice) :
  likely (PyStr term) devices = Ok (matching term devices).
Proof.
  induction devices as [|d rest IH]; [reflexivity|].
  cbn [likely py_lower mbind outcome_bind]. rewrite IH.
  cbn [mbind outcome_bind matching List.filter].
  destruct (str_in (lower term) (lower (name d))); reflexivity.
Qed.

(** One lookup, by the number of matches in the current enumeration. *)
Lemma find_input_device_eq (term : string) (m : machine) :
  find_input_device (PyStr term) m =
  (match matching term (attached (os m) (enumerations (os m))) with
   | [] => Ok None
   | [d] => Ok (Some d)
   | _ :: _ :: _ => Raise ValueError
   end,
   {| self := self m;
      os := set_enumerations (S (enumerations (os m))) (os m) |}).
Proof.
  unfold find_input_device, all_input_devices. run_M.
  rewrite likely_matching. cbn.
  destruct (matching term (attached (os m) (enumerations (os m))))
    as [|d [|d' rest]]; reflexivity.
Qed.

Lemma missed_0 (w : world) : missed 0 w = w.
Proof.
  destruct w. unfold missed. cbn. rewrite Nat.add_0_r. reflexivity.
Qed.

Lemma missed_S (k : nat) (w : world) :
  missed k (set_slept (3 :: slept w)
              (set_enumerations (S (enumerations w)) w)) = missed (S k) w.
Proof.
  unfold missed. cbn. f_equal.
  - lia.
  - rewrite cons_middle, app_assoc, <- replicate_cons_app. reflexivity.
Qed.

(** The retry loop skips the lookups that find nothing, sleeping three
    seconds after each. *)
Lemma load_device_loop_skip (term : string) (k : nat) :
  forall (fuel : nat) (m : machine),
    (forall j, (j < k)%nat ->
       matching term (attached (os m) (enumerations (os m) + j)) = []) ->
    load_device_loop (k + fuel) (PyStr term) m =
    load_device_loop fuel (PyStr term)
      {| self := self m; os := missed k (os m) |}.
Proof.
  induction k as [|k IH]; intros fuel m Hnone.
  - rewrite missed_0. destruct m. reflexivity.
  - cbn [Nat.add load_device_loop]. unfold mbind at 1, M_bind at 1.
    rewrite find_input_device_eq.
    pose proof (Hnone 0%nat ltac:(lia)) as H0. rewrite Nat.add_0_r in H0.
    rewrite H0. unfold time_sleep. run_M.
    rewrite IH.
    + cbn. rewrite missed_S. reflexivity.
    + intros j Hj. cbn. specialize (Hnone (S j) ltac:(lia)).
      rewrite Nat.add_succ_r in Hnone. exact Hnone.
Qed.

(** The world after [k] lookups that found nothing and one that found
    something. *)
Lemma load_device_loop_hit (term : string) (k fuel : nat) (m : machine) :
  (forall j, (j < k)%nat ->
     matching term (attached (os m) (enumerations (os m) + j)) = []) ->
  load_device_loop (k + S fuel) (PyStr term) m =
  match matching term (attached (os m) (enumerations (os m) + k)) with
  | [] =>
      load_device_loop fuel (PyStr term)
        {| self := self m; os := missed (S k) (os m) |}
  | [d] =>
      (Ok d, {| self := self m;
                os := set_enumerations (S (enumerations (os m) + k))
                        (missed k (os m)) |})
  | _ :: _ :: _ =>
      (Raise ValueError,
       {| self := self m;
          os := set_enumerations (S (enumerations (os m) + k))
                  (missed k (os m)) |})
  end.
Proof.
  intros Hnone. rewrite load_device_loop_skip by exact Hnone.
  cbn [load_device_loop]. unfold mbind at 1, M_bind at 1.
  rewrite find_input_device_eq. cbn [self os missed enumerations attached].
  destruct (matching term (attached (os m) (enumerations (os m) + k)))
    as [|d [|d' rest]]; try reflexivity.
  unfold time_sleep. run_M. do 2 f_equal.
  unfold missed, set_slept, set_enumerations. cbn. f_equal. lia.
Qed.

Lemma load_device_found (term : string) (k fuel : nat) (m : machine)
    (d : InputDevice) :
  (forall j, (j < k)%nat ->
     matching term (attached (os m) (enumerations (os m) + j)) = []) ->
  matching term (attached (os m) (enumerations (os m) + k)) = [d] ->
  load_device (k + S fuel) (PyStr term) m =
  (Ok tt, {| self := set_device (Some d) (self m);
             os := set_enumerations (S (enumerations (os m) + k))
                     (missed k (os m)) |}).
Proof.
  intros Hnone Hone. unfold load_device, mbind, M_bind.
  rewrite load_device_loop_hit by exact Hnone. rewrite Hone. reflexivity.
Qed.

Lemma load_device_ambiguous (term : string) (k fuel : nat) (m : machine) :
  (forall j, (j < k)%nat ->
     matching term (attached (os m) (enumerations (os m) + j)) = []) ->
  (2 <= length (matching term
                  (attached (os m) (enumerations (os m) + k))))%nat ->
  load_device (k + S fuel) (PyStr term) m =
  (Raise ValueError,
   {| self := self m;
      os := set_enumerations (S (enumerations (os m) + k))
              (missed k (os m)) |}).
Proof.
  intros Hnone Hmany. unfold load_device, mbind, M_bind.
  rewrite load_device_loop_hit by exact Hnone.
  destruct (matching term (attached (os m) (enumerations (os m) + k)))
    as [|d [|d' rest]]; cbn in Hmany; try lia. reflexivity.
Qed.

Lemma load_device_starved (term : string) (fuel : nat) (m : machine) :
  (forall j, (j < fuel)%nat ->
     matching term (attached (os m) (enumerations (os m) + j)) = []) ->
  load_device fuel (PyStr term) m =
  (OutOfFuel, {| self := self m; os := missed fuel (os m) |}).
Proof.
  intros Hnone. unfold load_device, mbind, M_bind.
  rewrite <- (Nat.add_0_r fuel) at 1.
  rewrite load_device_loop_skip by exact Hnone. reflexivity.
Qed.

(** The first enumeration, from the current one on, in which a device
    matches: either there is none among the next [fuel], or there is a
    first one. *)
Lemma first_match (term : string) (m : machine) (fuel : nat) :
  (forall j, (j < fuel)%nat ->
     matching term (attached (os m) (enumerations (os m) + j)) = []) \/
  exists k, (k < fuel)%nat /\
    (forall j, (j < k)%nat ->
       matching term (attached (os m) (enumerations (os m) + j)) = []) /\
    matching term (attached (os m) (enumerations (os m) + k)) <> [].
Proof.
  induction fuel as [|fuel IH].
  - left. intros j Hj. lia.
  - destruct IH as [Hnone|(k & Hk & Hbefore & Hat)].
    + destruct (matching term (attached (os m) (enumerations (os m) + fuel)))
        as [|d rest] eqn:Hlast.
      * left. intros j Hj. destruct (Nat.eq_dec j fuel) as [->|Hne];
          [exact Hlast | apply Hnone; lia].
      * right. exists fuel. split; [lia|]. split; [exact Hnone|].
        rewrite Hlast. discriminate.
    + right. exists k. split; [lia|]. split; assumption.
Qed.

(** [load_device] returns only after a lookup with exactly one match. *)
Lemma load_device_returns_only (term : string) (fuel : nat) (m m' : machine) :
  load_device fuel (PyStr term) m = (Ok tt, m') ->
  exists k d,
    (k < fuel)%nat /\
    (forall j, (j < k)%nat ->
       matching term (attached (os m) (enumerations (os m) + j)) = []) /\
    matching term (attached (os m) (enumerations (os m) + k)) = [d] /\
    m' = {| self := set_device (Some d) (self m);
            os := set_enumerations (S (enumerations (os m) + k))
                    (missed k (os m)) |}.
Proof.
  intros Hret.
  destruct (first_match term m fuel) as [Hnone|(k & Hk & Hbefore & Hat)].
  - rewrite load_device_starved in Hret by exact Hnone. discriminate.
  - replace fuel with (k + S (fuel - S k))%nat in Hret by lia.
    destruct (matching term (attached (os m) (enumerations (os m) + k)))
      as [|d [|d' rest]] eqn:Hmatch; [contradiction| |].
    + rewrite (load_device_found term k _ m d Hbefore Hmatch) in Hret.
      exists k, d. repeat split; try assumption. congruence.
    + rewrite load_device_ambiguous in Hret;
        [discriminate | exact Hbefore | rewrite Hmatch; cbn; lia].
Qed.

(** ** What the read step touches *)

Lemma set_device_same (s : controller) : set_device (device s) s = s.
Proof. destruct s. reflexivity. Qed.

Lemma find_input_device_self (t : pyval) (m : machine) :
  self (snd (find_input_device t m)) = self m.
Proof.
  unfold find_input_device, all_input_devices. run_M.
  destruct (likely t (attached (os m) (enumerations (os m)))) as [l| |];
    cbn; try reflexivity.
  destruct l as [|d [|d' rest]]; reflexivity.
Qed.

Lemma load_device_loop_self (fuel : nat) (t : pyval) :
  forall m : machine, self (snd (load_device_loop fuel t m)) = self m.
Proof.
  induction fuel as [|fuel IH]; intros m; [reflexivity|].
  cbn [load_device_loop]. unfold mbind at 1, M_bind at 1.
  pose proof (find_input_device_self t m) as Hfind.
  destruct (find_input_device t m) as [[[d|]| |] m1]; cbn in Hfind |- *;
    try exact Hfind.
  unfold time_sleep. run_M. rewrite IH. exact Hfind.
Qed.

(** [load_device] assigns the device attribute at most. *)
Lemma load_device_self (fuel : nat) (t : pyval) (m : machine) :
  exists dev, self (snd (load_device fuel t m)) = set_device dev (self m).
Proof.
  unfold load_device, mbind, M_bind.
  pose proof (load_device_loop_self fuel t m) as Hloop.
  destruct (load_device_loop fuel t m) as [[d| |] m1]; cbn in Hloop |- *.
  - exists (Some d). rewrite Hloop. reflexivity.
  - exists (device (self m)). rewrite Hloop, set_device_same. reflexivity.
  - exists (device (self m)). rewrite Hloop, set_device_same. reflexivity.
Qed.

(** So does [read_loop]. *)
Lemma read_loop_self (fuel : nat) (m : machine) :
  exists dev, self (snd (read_loop fuel m)) = set_device dev (self m).
Proof.
  unfold read_loop, try_except, next_event, read_device, btn_map_get. run_M.
  destruct (device (self m)) as [d0|] eqn:Hdev; cbn.
  2: { exists None. rewrite <- Hdev, set_device_same. reflexivity. }
  destruct (incoming (os m) (reads (os m))) as [event|]; cbn.
  - exists (Some d0). rewrite <- Hdev, set_device_same.
    destruct (btn_map (self m)) as [bm|]; cbn; [|reflexivity].
    destruct (type event =? EV_ABS)%Z; cbn; [|reflexivity].
    unfold py_div.
    destruct (Req_dec_T (IZR (joystick_max_value (self m))) 0); reflexivity.
  - unfold time_sleep. run_M.
    match goal with
    | |- context [load_device fuel ?t ?m1] =>
        destruct (load_device_self fuel t m1) as [dev Hload];
        destruct (load_device fuel t m1) as [[[]| |] m2]
    end; cbn in Hload |- *; exists dev; exact Hload.
Qed.

(** ** The read step, case by case *)

(** A delivered event is decoded. *)
Lemma read_loop_event (fuel : nat) (m : machine) (d0 : InputDevice)
    (bm : gmap Z string) (event : InputEvent) :
  device (self m) = Some d0 ->
  btn_map (self m) = Some bm ->
  incoming (os m) (reads (os m)) = Some event ->
  type event <> EV_ABS \/ joystick_max_value (self m) <> 0%Z ->
  read_loop fuel m =
  (Ok (bm !! code event, Some (decoded (self m) event)),
   {| self := self m; os := set_reads (S (reads (os m))) (os m) |}).
Proof.
  intros Hdev Hmap Hin Hdiv.
  unfold read_loop, try_except, next_event, read_device, btn_map_get, decoded.
  run_M. rewrite Hdev. cbn. rewrite Hin. cbn. rewrite Hmap. cbn.
  destruct (Z.eqb_spec (type event) EV_ABS) as [Habs|Hkey]; cbn; [|reflexivity].
  unfold py_div.
  destruct (Req_dec_T (IZR (joystick_max_value (self m))) 0) as [Hzero|_];
    [|reflexivity].
  apply eq_IZR in Hzero. destruct Hdiv; contradiction.
Qed.

(** A failed read sleeps a tenth of a second and looks the device up
    again. *)
Lemma read_loop_lost (fuel : nat) (m : machine) (d0 : InputDevice) :
  device (self m) = Some d0 ->
  incoming (os m) (reads (os m)) = None ->
  read_loop fuel m =
  (load_device fuel (device_search_term (self m));; mret (None, None))
    {| self := self m; os := lost (os m) |}.
Proof.
  intros Hdev Hin.
  unfold read_loop, try_except, next_event, read_device, time_sleep, lost.
  run_M. rewrite Hdev. cbn. rewrite Hin. reflexivity.
Qed.

(** The failed read followed by a lookup that finds the device after [k]
    empty ones. *)
Lemma read_loop_reconnects (term : string) (k fuel : nat) (m : machine)
    (d0 d : InputDevice) :
  device (self m) = Some d0 ->
  device_search_term (self m) = PyStr term ->
  incoming (os m) (reads (os m)) = None ->
  (forall j, (j < k)%nat ->
     matching term (attached (os m) (enumerations (os m) + j)) = []) ->
  matching term (attached (os m) (enumerations (os m) + k)) = [d] ->
  read_loop (k + S fuel) m =
  (Ok (None, None),
   {| self := set_device (Some d) (self m);
      os := set_enumerations (S (enumerations (os m) + k))
              (missed k (lost (os m))) |}).
Proof.
  intros Hdev Hterm Hin Hnone Hone.
  rewrite (read_loop_lost _ m d0 Hdev Hin), Hterm.
  unfold mbind, M_bind.
  rewrite (load_device_found term k fuel _ d); [reflexivity| |]; cbn; assumption.
Qed.

(** ** The dispatch step *)

Lemma update_state_from_loop_eq (fuel : nat) (m : machine) :
  update_state_from_loop fuel m =
  match read_loop fuel m with
  | (Ok (btn, val), m1) =>
      match dict_get func_map btn with
      | Some func => func val
      | None => mret tt
      end {| self := set_state (<[btn := val]> (state (self m1))) (self m1);
             os := os m1 |}
  | (Raise e, m1) => (Raise e, m1)
  | (OutOfFuel, m1) => (OutOfFuel, m1)
  end.
Proof.
  unfold update_state_from_loop, mbind, M_bind.
  destruct (read_loop fuel m) as [[[btn val]| |] m1]; reflexivity.
Qed.

(** No handler of the dispatch table writes the last-seen map. *)
Lemma handlers_keep_state (key : string) (func : option R -> M unit)
    (val : option R) (m : machine) :
  dict_get func_map (Some key) = Some func ->
  state (self (snd (func val m))) = state (self m).
Proof.
  intros Hfunc. handler_cases Hfunc.
  - destruct val as [r|]; [rewrite update_stick_x_map_eq|]; reflexivity.
  - destruct val as [r|]; [rewrite update_stick_y_map_eq|]; reflexivity.
  - unfold start_recording. destruct (py_eq val 1); reflexivity.
  - unfold stop_recording. destruct (py_eq val 1); reflexivity.
  - unfold set_drive_mode_manual. destruct (py_eq val 1); reflexivity.
  - unfold toggle_drive_mode_autonomous.
    destruct (py_eq val 1); [|reflexivity]. run_M.
    destruct (String.eqb (drive_mode (self m)) "user"); cbn; [reflexivity|].
    destruct (drive_mode_autonomous_toggle (self m)); reflexivity.
  - unfold increment_angle_scale. destruct (py_eq val 1); reflexivity.
  - unfold decrement_angle_scale. destruct (py_eq val 1); reflexivity.
  - unfold increment_throttle_scale. destruct (py_eq val 1); reflexivity.
  - unfold decrement_throttle_scale. destruct (py_eq val 1); reflexivity.
Qed.

(** What the update step leaves in the last-seen map. *)
Lemma update_state_from_loop_state (fuel : nat) (m : machine) :
  state (self (snd (update_state_from_loop fuel m))) =
  match fst (read_loop fuel m) with
  | Ok (btn, val) => <[btn := val]> (state (self m))
  | _ => state (self m)
  end.
Proof.
  rewrite update_state_from_loop_eq.
  destruct (read_loop_self fuel m) as [dev Hself].
  destruct (read_loop fuel m) as [[[btn val]| |] m1]; cbn [fst snd] in *;
    try (rewrite Hself; reflexivity).
  destruct (dict_get func_map btn) as [func|] eqn:Hfunc.
  - destruct btn as [key|]; [|discriminate Hfunc].
    rewrite (handlers_keep_state key func val _ Hfunc). cbn.
    rewrite Hself. reflexivity.
  - cbn. rewrite Hself. reflexivity.
Qed.

(** ** Construction *)

(** [__init__] assigns every attribute, then takes the device it was given
    or looks for one. *)
Lemma init_eq (event_input_device : option InputDevice) (cfg : config_t)
    (device_search_term_arg : option string) (verbose_arg : bool)
    (fuel : nat) (m : machine) :
  __init__ event_input_device cfg device_search_term_arg verbose_arg fuel m =
  match event_input_device with
  | None =>
      load_device fuel
        (device_search_term (at_rest cfg device_search_term_arg verbose_arg))
  | Some d => assign (set_device (Some d))
  end {| self := at_rest cfg device_search_term_arg verbose_arg; os := os m |}.
Proof. destruct event_input_device; reflexivity. Qed.

(** ** Reconnection and lookup *)

(** The update step across a reconnection. *)
Lemma reconnection_step (term : string) (k fuel : nat) (m : machine)
    (d0 d : InputDevice) :
  device (self m) = Some d0 ->
  device_search_term (self m) = PyStr term ->
  incoming (os m) (reads (os m)) = None ->
  (forall j, (j < k)%nat ->
     matching term (attached (os m) (enumerations (os m) + j)) = []) ->
  matching term (attached (os m) (enumerations (os m) + k)) = [d] ->
  exists m2, update_state_from_loop (k + S fuel) m = (Ok tt, m2) /\
             control (self m2) = control (self m) /\
             state (self m2) = <[None := None]> (state (self m)).
Proof.
  intros Hdev Hterm Hin Hnone Hone. eexists. split.
  - rewrite update_state_from_loop_eq.
    rewrite (read_loop_reconnects term k fuel m d0 d Hdev Hterm Hin Hnone Hone).
    reflexivity.
  - split; reflexivity.
Qed.

(** C6. A read that fails with [OSError], followed by a lookup that finds
    the device again (after [k] lookups that found nothing), makes
    [read_loop] return [(None, None)]; the update step then returns, and
    scales, drive mode, recording flag, angle, throttle and the stored stick
    position are those of before. The next read is the next event. *)
Theorem reconnection_keeps_control (term : string) (k fuel : nat)
    (m : machine) (d0 d : InputDevice) :
  device (self m) = Some d0 ->
  device_search_term (self m) = PyStr term ->
  incoming (os m) (reads (os m)) = None ->
  (forall j, (j < k)%nat ->
     matching term (attached (os m) (enumerations (os m) + j)) = []) ->
  matching term (attached (os m) (enumerations (os m) + k)) = [d] ->
  (exists m1, read_loop (k + S fuel) m = (Ok (None, None), m1) /\
              control (self m1) = control (self m) /\
              device (self m1) = Some d) /\
  (exists m2, update_state_from_loop (k + S fuel) m = (Ok tt, m2) /\
              control (self m2) = control (self m) /\
              device (self m2) = Some d /\
              state (self m2) = <[None := None]> (state (self m)) /\
              incoming (os m2) = incoming (os m) /\
              reads (os m2) = S (reads (os m))).
Proof.
  intros Hdev Hterm Hin Hnone Hone.
  pose proof (read_loop_reconnects term k fuel m d0 d Hdev Hterm Hin Hnone Hone)
    as Hread.
  split.
  - eexists. split; [exact Hread|]. split; reflexivity.
  - eexists. split.
    + rewrite update_state_from_loop_eq, Hread. reflexivity.
    + repeat split; reflexivity.
Qed.

Lemma reconnection_keeps_control_witness :
  exists m2,
    update_state_from_loop 3 (started (world_of reappearing (fun _ => None)))
      = (Ok tt, m2) /\
    control (self m2) = (1.0, 1.0, "user", true, 0.0, 0.0, 0, 0) /\
    device (self m2) = Some pad.
Proof.
  destruct (reconnection_keeps_control "Nintendo" 2 0
              (started (world_of reappearing (fun _ => None))) pad pad)
    as [_ (m2 & Hstep & Hcontrol & Hdevice & _)];
    try reflexivity.
  - intros j Hj. destruct j as [|[|j]]; [reflexivity|reflexivity|lia].
  - exists m2. split; [exact Hstep|]. split; [exact Hcontrol|exact Hdevice].
Defined.

(** C7. With two or more matching devices the lookup raises [ValueError],
    [load_device] lets it through and construction fails; with none the
    lookup returns [None] and [load_device] goes on looking, three seconds
    apart, for as long as none matches; it returns only after a lookup with
    exactly one match, whose device it assigns. A device matches when its
    name contains the term, case-insensitively. *)
Theorem device_lookup (term : string) (m : machine) :
  (forall d devices,
      In d (matching term devices) <->
      In d devices /\ contains_ci (name d) term) /\
  ((2 <= length (matching term
                   (attached (os m) (enumerations (os m)))))%nat ->
   fst (find_input_device (PyStr term) m) = Raise ValueError /\
   (forall fuel,
       fst (load_device (S fuel) (PyStr term) m) = Raise ValueError /\
       self (snd (load_device (S fuel) (PyStr term) m)) = self m) /\
   (forall cfg verbose_arg fuel,
       term <> "" ->
       fst (__init__ None cfg (Some term) verbose_arg (S fuel) m)
         = Raise ValueError)) /\
  (matching term (attached (os m) (enumerations (os m))) = [] ->
   fst (find_input_device (PyStr term) m) = Ok None) /\
  (forall fuel,
      (forall j, (j < fuel)%nat ->
         matching term (attached (os m) (enumerations (os m) + j)) = []) ->
      load_device fuel (PyStr term) m =
      (OutOfFuel, {| self := self m; os := missed fuel (os m) |})) /\
  (forall k fuel d,
      (forall j, (j < k)%nat ->
         matching term (attached (os m) (enumerations (os m) + j)) = []) ->
      matching term (attached (os m) (enumerations (os m) + k)) = [d] ->
      exists m', load_device (k + S fuel) (PyStr term) m = (Ok tt, m') /\
                 device (self m') = Some d /\
                 slept (os m') = (replicate k 3 ++ slept (os m))%list) /\
  (forall fuel m',
      load_device fuel (PyStr term) m = (Ok tt, m') ->
      exists k d,
        (k < fuel)%nat /\
        (forall j, (j < k)%nat ->
           matching term (attached (os m) (enumerations (os m) + j)) = []) /\
        matching term (attached (os m) (enumerations (os m) + k)) = [d] /\
        device (self m') = Some d).
Proof.
  split; [intros d devices; apply matching_spec|].
  split; [|split; [|split; [|split]]].
  - intros Hmany.
    assert (Hmany0 : (2 <= length (matching term
               (attached (os m) (enumerations (os m) + 0))))%nat)
      by (rewrite Nat.add_0_r; exact Hmany).
    assert (Hnone : forall j, (j < 0)%nat ->
               matching term (attached (os m) (enumerations (os m) + j)) = [])
      by (intros j Hj; lia).
    split; [|split].
    + rewrite find_input_device_eq. cbn [fst].
      destruct (matching term (attached (os m) (enumerations (os m))))
        as [|d [|d' rest]]; cbn in Hmany; try lia. reflexivity.
    + intros fuel.
      pose proof (load_device_ambiguous term 0 fuel m Hnone Hmany0) as Hamb.
      change (0 + S fuel)%nat with (S fuel) in Hamb. rewrite Hamb.
      split; reflexivity.
    + intros cfg verbose_arg fuel Hterm.
      rewrite init_eq. cbn [device_search_term at_rest].
      replace (py_or (Some term)
                 (default (PyInt 1280) (cfg_device_search_term cfg)))
        with (PyStr term) by (destruct term; [contradiction|reflexivity]).
      match goal with
      | |- context [load_device (S fuel) (PyStr term) ?m1] =>
          pose proof (load_device_ambiguous term 0 fuel m1 Hnone Hmany0)
            as Hamb
      end.
      change (0 + S fuel)%nat with (S fuel) in Hamb. rewrite Hamb.
      reflexivity.
  - intros Hzero. rewrite find_input_device_eq, Hzero. reflexivity.
  - intros fuel Hnone. apply load_device_starved, Hnone.
  - intros k fuel d Hnone Hone. eexists.
    split; [apply load_device_found; eassumption|].
    split; reflexivity.
  - intros fuel m' Hret.
    destruct (load_device_returns_only term fuel m m' Hret)
      as (k & d & Hk & Hnone & Hone & ->).
    exists k, d. repeat split; assumption.
Qed.

Lemma device_lookup_witness :
  fst (find_input_device (PyStr "nintendo")
         (started (world_of (fun _ => [pad; pad2]) (fun _ => None))))
    = Raise ValueError /\
  (exists m',
      load_device 3 (PyStr "nintendo")
        (started (world_of reappearing (fun _ => None))) = (Ok tt, m') /\
      device (self m') = Some pad /\
      slept (os m') = [3; 3]) /\
  fst (load_device 7 (PyStr "nintendo")
         (started (world_of (fun _ => []) (fun _ => None)))) = OutOfFuel.
Proof.
  split; [|split].
  - destruct (device_lookup "nintendo"
                (started (world_of (fun _ => [pad; pad2]) (fun _ => None))))
      as (_ & Hmany & _).
    apply Hmany. exact (le_n 2).
  - destruct (device_lookup "nintendo"
                (started (world_of reappearing (fun _ => None))))
      as (_ & _ & _ & _ & Hfound & _).
    apply (Hfound 2%nat 0%nat pad); [|reflexivity].
    intros j Hj. destruct j as [|[|j]]; [reflexivity|reflexivity|lia].
  - destruct (device_lookup "nintendo"
                (started (world_of (fun _ => []) (fun _ => None))))
      as (_ & _ & _ & Hnone & _).
    rewrite Hnone; [reflexivity|]. intros j Hj. reflexivity.
Defined.

(** C8. After construction angle and throttle are 0.0, both scales 1.0, the
    stored stick position is (0, 0), the drive mode is "user" and recording
    is on. Construction returns when a device is handed over; when it looks
    the device up it returns as [load_device] does. *)
Theorem initial_state (event_input_device : option InputDevice)
    (cfg : config_t) (device_search_term_arg : option string)
    (verbose_arg : bool) (fuel : nat) (m : machine) :
  (forall d, event_input_device = Some d ->
     exists m',
       __init__ event_input_device cfg device_search_term_arg verbose_arg
         fuel m = (Ok tt, m') /\
       device (self m') = Some d) /\
  (forall m',
     __init__ event_input_device cfg device_search_term_arg verbose_arg
       fuel m = (Ok tt, m') ->
     angle (self m') = 0.0 /\
     throttle (self m') = 0.0 /\
     angle_scale (self m') = 1.0 /\
     throttle_scale (self m') = 1.0 /\
     u (self m') = 0 /\
     v (self m') = 0 /\
     drive_mode (self m') = "user" /\
     recording (self m') = true).
Proof.
  split.
  - intros d ->. rewrite init_eq. eexists. split; reflexivity.
  - intros m' Hinit. rewrite init_eq in Hinit.
    destruct event_input_device as [d|].
    + injection Hinit as <-. repeat split; reflexivity.
    + match type of Hinit with
      | load_device fuel ?t ?m0 = _ =>
          destruct (load_device_self fuel t m0) as [dev Hself]
      end.
      rewrite Hinit in Hself. cbn [snd self] in Hself. rewrite Hself.
      repeat split; reflexivity.
Qed.

Lemma initial_state_witness :
  exists m',
    __init__ None pad_config None false 3
      {| self := blank; os := world_of reappearing (fun _ => None) |}
      = (Ok tt, m') /\
    control (self m') = (1.0, 1.0, "user", true, 0.0, 0.0, 0, 0).
Proof.
  assert (Hrun : exists m',
             __init__ None pad_config None false 3
               {| self := blank; os := world_of reappearing (fun _ => None) |}
               = (Ok tt, m')).
  { rewrite init_eq. eexists.
    apply (load_device_found "Nintendo" 2 0); [|reflexivity].
    intros j Hj. destruct j as [|[|j]]; [reflexivity|reflexivity|lia]. }
  destruct Hrun as [m' Hrun]. exists m'. split; [exact Hrun|].
  destruct (initial_state None pad_config None false 3
              {| self := blank; os := world_of reappearing (fun _ => None) |})
    as [_ Hfields].
  destruct (Hfields m' Hrun)
    as (Hangle & Hthrottle & Hascale & Htscale & Hu & Hv & Hmode & Hrec).
  unfold control.
  rewrite Hangle, Hthrottle, Hascale, Htscale, Hu, Hv, Hmode, Hrec.
  reflexivity.
Defined.

(** ** The last-seen map *)

(** A failed read with two or more matching devices attached: the update
    step raises and the object is as before. *)
Lemma update_raises_when_ambiguous (term : string) (fuel : nat) (m : machine)
    (d0 : InputDevice) :
  device (self m) = Some d0 ->
  device_search_term (self m) = PyStr term ->
  incoming (os m) (reads (os m)) = None ->
  (2 <= length (matching term
                  (attached (os m) (enumerations (os m)))))%nat ->
  update_state_from_loop (S fuel) m =
  (Raise ValueError,
   {| self := self m;
      os := set_enumerations (S (enumerations (os m))) (lost (os m)) |}).
Proof.
  intros Hdev Hterm Hin Hmany.
  rewrite update_state_from_loop_eq, (read_loop_lost _ m d0 Hdev Hin), Hterm.
  unfold mbind, M_bind.
  pose proof (load_device_ambiguous term 0 fuel
                {| self := self m; os := lost (os m) |}) as Hamb.
  change (0 + S fuel)%nat with (S fuel) in Hamb.
  rewrite Hamb.
  - cbn. rewrite Nat.add_0_r. unfold missed. cbn. rewrite Nat.add_0_r.
    reflexivity.
  - intros j Hj. lia.
  - cbn. rewrite Nat.add_0_r. exact Hmany.
Qed.

(** C10, as the code has it. An update step whose read step returns writes
    the one entry that the read step returned, under the decoded name and
    after any earlier entry of that name; a step whose read step raises
    writes none. An event whose code the button map lacks and a failed read
    both use the key [None], run no handler and leave the control state as
    it was. *)
Theorem update_writes_one_entry (fuel : nat) (m : machine) :
  (forall btn val m1,
      read_loop fuel m = (Ok (btn, val), m1) ->
      state (self (snd (update_state_from_loop fuel m)))
        = <[btn := val]> (state (self m))) /\
  (forall e m1,
      read_loop fuel m = (Raise e, m1) ->
      fst (update_state_from_loop fuel m) = Raise e /\
      state (self (snd (update_state_from_loop fuel m))) = state (self m)) /\
  (forall d0 bm event,
      device (self m) = Some d0 ->
      btn_map (self m) = Some bm ->
      incoming (os m) (reads (os m)) = Some event ->
      type event <> EV_ABS \/ joystick_max_value (self m) <> 0%Z ->
      fst (read_loop fuel m)
        = Ok (bm !! code event, Some (decoded (self m) event)) /\
      (bm !! code event = None ->
       exists m2,
         update_state_from_loop fuel m = (Ok tt, m2) /\
         state (self m2)
           = <[None := Some (decoded (self m) event)]> (state (self m)) /\
         control (self m2) = control (self m))) /\
  (forall term k fuel' d0 d,
      fuel = (k + S fuel')%nat ->
      device (self m) = Some d0 ->
      device_search_term (self m) = PyStr term ->
      incoming (os m) (reads (os m)) = None ->
      (forall j, (j < k)%nat ->
         matching term (attached (os m) (enumerations (os m) + j)) = []) ->
      matching term (attached (os m) (enumerations (os m) + k)) = [d] ->
      exists m2,
        update_state_from_loop fuel m = (Ok tt, m2) /\
        state (self m2) = <[None := None]> (state (self m)) /\
        control (self m2) = control (self m)) /\
  dict_get func_map None = None /\
  (forall val m1 fuel2 val2 m3,
      read_loop fuel m = (Ok (None, val), m1) ->
      read_loop fuel2 (snd (update_state_from_loop fuel m))
        = (Ok (None, val2), m3) ->
      state (self (snd (update_state_from_loop fuel2
                          (snd (update_state_from_loop fuel m)))))
        = <[None := val2]> (state (self m))).
Proof.
  split; [|split; [|split; [|split; [|split]]]].
  - intros btn val m1 Hread.
    rewrite update_state_from_loop_state, Hread. reflexivity.
  - intros e m1 Hread. split.
    + rewrite update_state_from_loop_eq, Hread. reflexivity.
    + rewrite update_state_from_loop_state, Hread. reflexivity.
  - intros d0 bm event Hdev Hmap Hin Hdiv.
    pose proof (read_loop_event fuel m d0 bm event Hdev Hmap Hin Hdiv) as Hread.
    split; [rewrite Hread; reflexivity|].
    intros Hunmapped. eexists. split.
    + rewrite update_state_from_loop_eq, Hread, Hunmapped. reflexivity.
    + split; reflexivity.
  - intros term k fuel' d0 d -> Hdev Hterm Hin Hnone Hone.
    destruct (reconnection_step term k fuel' m d0 d Hdev Hterm Hin Hnone Hone)
      as (m2 & Hstep & Hcontrol & Hstate).
    exists m2. repeat split; assumption.
  - reflexivity.
  - intros val m1 fuel2 val2 m3 Hread1 Hread2.
    rewrite update_state_from_loop_state, Hread2. cbn [fst].
    rewrite update_state_from_loop_state, Hread1. cbn [fst].
    apply insert_insert_eq.
Qed.

Lemma pad_buttons_unmapped : pad_buttons !! code unmapped_key = None.
Proof. vm_compute. reflexivity. Qed.

Lemma update_writes_one_entry_witness :
  (exists m2,
      update_state_from_loop 0
        (started (world_of (fun _ => [pad]) (fun _ => Some unmapped_key)))
        = (Ok tt, m2) /\
      state (self m2) = <[None := Some 1]> ∅) /\
  (exists m2,
      update_state_from_loop 3 (started (world_of reappearing (fun _ => None)))
        = (Ok tt, m2) /\
      state (self m2) = <[None := None]> ∅).
Proof.
  split.
  - destruct (update_writes_one_entry 0
                (started (world_of (fun _ => [pad])
                            (fun _ => Some unmapped_key))))
      as (_ & _ & Hevent & _).
    assert (Hkey : type unmapped_key <> EV_ABS \/ 1280%Z <> 0%Z)
      by (left; discriminate).
    destruct (Hevent pad pad_buttons unmapped_key
                eq_refl eq_refl eq_refl Hkey) as [_ Hunmapped].
    destruct (Hunmapped pad_buttons_unmapped) as (m2 & Hstep & Hstate & _).
    exists m2. split; [exact Hstep | exact Hstate].
  - destruct (update_writes_one_entry 3
                (started (world_of reappearing (fun _ => None))))
      as (_ & _ & _ & Hlost & _).
    assert (Hoff : forall j, (j < 2)%nat ->
                     matching "Nintendo" (reappearing (0 + j)) = [])
      by (intros j Hj; destruct j as [|[|j]]; [reflexivity|reflexivity|lia]).
    destruct (Hlost "Nintendo" 2%nat 0%nat pad pad
                eq_refl eq_refl eq_refl eq_refl Hoff eq_refl)
      as (m2 & Hstep & Hstate & _).
    exists m2. split; [exact Hstep | exact Hstate].
Defined.

(** C10, as stated, fails: the read fails, two attached devices match the
    search term, and the update step raises [ValueError] with the last-seen
    map still empty. *)
Lemma update_may_write_no_entry :
  fst (update_state_from_loop 1 ambiguous_start) = Raise ValueError /\
  state (self (snd (update_state_from_loop 1 ambiguous_start))) = ∅ /\
  state (self ambiguous_start) = ∅.
Proof.
  rewrite (update_raises_when_ambiguous "Nintendo" 0 ambiguous_start pad
             eq_refl eq_refl eq_refl (le_n 2)).
  repeat split; reflexivity.
Qed.

Lemma autonomous_starts_with_local_angle_witness :
  exists m',
    toggle_drive_mode_autonomous (Some 1)
      (started (world_of (fun _ => [pad]) (fun _ => None))) = (Ok tt, m') /\
    drive_mode (self m') = "local_angle".
Proof.
  destruct (autonomous_starts_with_local_angle
              (started (world_of (fun _ => [pad]) (fun _ => None))) eq_refl)
    as (_ & m' & Hpress & Hmode & _).
  exists m'. split; [exact Hpress | exact Hmode].
Defined.

(** ** The profiler *)

Lemma advanced_0 (w : world) : advanced 0 0 w = w.
Proof.
  destruct w. unfold advanced. cbn. rewrite !Nat.add_0_r. reflexivity.
Qed.

(** A read of an answering device returns and counts as one read. *)
Lemma read_loop_answering (fuel r c : nat) (m : machine) :
  answering m ->
  exists x,
    read_loop fuel {| self := self m; os := advanced r c (os m) |} =
    (Ok x, {| self := self m; os := advanced (S r) c (os m) |}).
Proof.
  intros ([d0 Hdev] & [bm Hmap] & Hevents).
  destruct (Hevents (reads (os m) + r)%nat) as (event & Hin & Hdiv).
  eexists.
  rewrite (read_loop_event fuel {| self := self m; os := advanced r c (os m) |}
             d0 bm event Hdev Hmap Hin Hdiv).
  cbn [self os]. do 2 f_equal.
  unfold advanced, set_reads. cbn. f_equal. lia.
Qed.

Lemma time_time_advanced (r c : nat) (m : machine) :
  time_time {| self := self m; os := advanced r c (os m) |} =
  (Ok (clock (os m) (clock_reads (os m) + c)),
   {| self := self m; os := advanced r (S c) (os m) |}).
Proof.
  unfold time_time. cbn. do 2 f_equal.
  unfold advanced, set_clock_reads. cbn. f_equal. lia.
Qed.

(** One batch: the rate is appended at the read that takes [event_total]
    past 1000, the 1001st of the batch. *)
Lemma profile_loop_batch (n : nat) :
  forall (e : Z) (fuel : nat) (start : R) (results : list R) (m : machine)
         (r c : nat),
    answering m ->
    (e + Z.of_nat n = 1000)%Z ->
    clock (os m) (clock_reads (os m) + c) - start <> 0 ->
    profile_loop (S n + fuel) e start results
      {| self := self m; os := advanced r c (os m) |} =
    let results' :=
      (results ++ [1001 / (clock (os m) (clock_reads (os m) + c) - start)])%list
    in
    (if (9 <? length results')%nat
     then mret results'
     else profile_loop fuel 0 (clock (os m) (clock_reads (os m) + S c)) results')
      {| self := self m; os := advanced (r + S n) (c + 2) (os m) |}.
Proof.
  induction n as [|n IH]; intros e fuel start results m r c Hm He Hstart.
  - change (1 + fuel)%nat with (S fuel). cbn [profile_loop].
    unfold mbind at 1, M_bind at 1.
    destruct (read_loop_answering fuel r c m Hm) as [x ->].
    replace (e + 1)%Z with 1001%Z by lia.
    change (1001 >? 1000)%Z with true. cbv iota.
    unfold mbind at 1, M_bind at 1. rewrite time_time_advanced.
    unfold mbind at 1, M_bind at 1, lift, py_div.
    destruct (Req_dec_T (clock (os m) (clock_reads (os m) + c) - start) 0)
      as [Hzero|_]; [contradiction|].
    unfold mbind at 1, M_bind at 1. rewrite time_time_advanced.
    replace (r + 1)%nat with (S r) by lia.
    replace (c + 2)%nat with (S (S c)) by lia.
    reflexivity.
  - change (S (S n) + fuel)%nat with (S (S n + fuel)). cbn [profile_loop].
    unfold mbind at 1, M_bind at 1.
    destruct (read_loop_answering (S n + fuel) r c m Hm) as [x ->].
    assert (Hnot : ((e + 1) >? 1000)%Z = false)
      by (rewrite Z.gtb_ltb; apply Z.ltb_ge; lia).
    rewrite Hnot.
    rewrite (IH (e + 1)%Z fuel start results m (S r) c Hm) by (assumption || lia).
    replace (S r + S n)%nat with (r + S (S n))%nat by lia.
    reflexivity.
Qed.

(** The batches that remain until ten rates are collected. *)
Lemma profile_loop_batches (b : nat) :
  forall (results : list R) (start : R) (fuel : nat) (m : machine)
         (r c : nat),
    answering m ->
    ticking (os m) ->
    (length results + S b = 10)%nat ->
    start < clock (os m) (clock_reads (os m) + c) ->
    profile_loop (S b * 1001 + fuel) 0 start results
      {| self := self m; os := advanced r c (os m) |} =
    (Ok (results ++
           batch_rates (S b) (clock (os m)) (clock_reads (os m) + c) start)%list,
     {| self := self m;
        os := advanced (r + S b * 1001) (c + 2 * S b) (os m) |}).
Proof.
  induction b as [|b IH]; intros results start fuel m r c Hm Htick Hlen Hstart.
  - replace (1 * 1001 + fuel)%nat with (S 1000 + fuel)%nat by lia.
    rewrite (profile_loop_batch 1000 0%Z fuel start results m r c Hm)
      by (lia || lra).
    cbv zeta. rewrite length_app. cbn [length].
    replace (length results + 1)%nat with 10%nat by lia.
    change (9 <? 10)%nat with true. cbv iota.
    replace (r + 1 * 1001)%nat with (r + 1001)%nat by lia.
    reflexivity.
  - replace (S (S b) * 1001 + fuel)%nat
      with (S 1000 + (S b * 1001 + fuel))%nat by lia.
    rewrite (profile_loop_batch 1000 0%Z _ start results m r c Hm)
      by (lia || lra).
    cbv zeta. rewrite length_app. cbn [length].
    assert (Hshort : (9 <? length results + 1)%nat = false)
      by (apply Nat.ltb_ge; lia).
    rewrite Hshort.
    rewrite IH; try assumption.
    + rewrite <- app_assoc. cbn [app batch_rates].
      replace (clock_reads (os m) + (c + 2))%nat
        with (clock_reads (os m) + c + 2)%nat by lia.
      replace (clock_reads (os m) + S c)%nat
        with (S (clock_reads (os m) + c)) by lia.
      replace (r + 1001 + S b * 1001)%nat
        with (r + S (S b) * 1001)%nat by lia.
      replace (c + 2 + 2 * S b)%nat with (c + 2 * S (S b))%nat by lia.
      reflexivity.
    + rewrite length_app. cbn [length]. lia.
    + replace (clock_reads (os m) + (c + 2))%nat
        with (S (clock_reads (os m) + S c)) by lia.
      apply Htick.
Qed.

Lemma batch_rates_length (b : nat) :
  forall (clk : nat -> R) (c : nat) (start : R),
    length (batch_rates b clk c start) = b.
Proof.
  induction b as [|b IH]; intros clk c start; [reflexivity|].
  cbn [batch_rates length]. rewrite IH. reflexivity.
Qed.

(** Every rate is 1001 events over the time between two clock readings. *)
Lemma batch_rates_lookup (b : nat) :
  forall (clk : nat -> R) (c : nat) (start : R) (i : nat),
    (i < b)%nat ->
    batch_rates b clk c start !! i =
    Some (1001 / (clk (c + 2 * i)%nat
                  - match i with O => start | S j => clk (c + 2 * j + 1)%nat end)).
Proof.
  induction b as [|b IH]; intros clk c start i Hi; [lia|].
  destruct i as [|i]; cbn [batch_rates lookup list_lookup].
  - replace (c + 2 * 0)%nat with c by lia. reflexivity.
  - rewrite IH by lia.
    replace (c + 2 + 2 * i)%nat with (c + 2 * S i)%nat by lia.
    destruct i as [|i].
    + replace (c + 2 * 0 + 1)%nat with (S c) by lia. reflexivity.
    + replace (c + 2 + 2 * i + 1)%nat with (c + 2 * S i + 1)%nat by lia.
      reflexivity.
Qed.

Lemma time_time_first (m : machine) :
  time_time m =
  (Ok (clock (os m) (clock_reads (os m))),
   {| self := self m; os := advanced 0 1 (os m) |}).
Proof.
  unfold time_time, advanced, set_clock_reads. cbn. do 3 f_equal; lia.
Qed.

(** C9, on the code. With a device that answers every read and a clock
    that goes forward, [profile] returns after ten batches of 1001 reads
    each, not 1000: the [i]-th rate is 1001 over the time between the clock
    readings that frame the batch. The report is as specified: the ten rates
    split into the five lowest and the five highest, the maximum is the
    greatest of the highest, the average is their sum over five. *)
Theorem profile_batches (fuel : nat) (m : machine) :
  answering m ->
  ticking (os m) ->
  exists (rates low high : list R) (mx avg : R) (m' : machine),
    profile (10 * 1001 + fuel) m = (Ok (mx, avg), m') /\
    reads (os m') = (reads (os m) + 10 * 1001)%nat /\
    length rates = 10%nat /\
    (forall i, (i < 10)%nat ->
       rates !! i =
       Some (1001 / (clock (os m) (clock_reads (os m) + 2 * i + 1)
                     - clock (os m) (clock_reads (os m) + 2 * i)))) /\
    rates ≡ₚ (low ++ high)%list /\
    length low = 5%nat /\
    length high = 5%nat /\
    (forall a b, a ∈ low -> b ∈ high -> a <= b) /\
    mx ∈ high /\
    (forall b, b ∈ high -> b <= mx) /\
    avg = sum high / 5.
Proof.
  intros Hm Htick.
  set (rates := batch_rates 10 (clock (os m)) (S (clock_reads (os m)))
                  (clock (os m) (clock_reads (os m)))).
  assert (Hlen : length rates = 10%nat) by apply batch_rates_length.
  set (sorted := merge_sort Rle rates).
  assert (Hperm : sorted ≡ₚ rates) by apply merge_sort_Permutation.
  assert (Hsorted : StronglySorted Rle (take 5 sorted ++ drop 5 sorted))
    by (rewrite take_drop; exact (StronglySorted_merge_sort Rle rates)).
  assert (Hslen : length sorted = 10%nat) by (rewrite Hperm; exact Hlen).
  assert (Hhigh : length (drop 5 sorted) = 5%nat)
    by (rewrite length_drop, Hslen; reflexivity).
  assert (Hlow : length (take 5 sorted) = 5%nat)
    by (rewrite length_take, Hslen; reflexivity).
  destruct (last (drop 5 sorted)) as [mx|] eqn:Hlast.
  2: { apply last_None in Hlast. rewrite Hlast in Hhigh. discriminate. }
  pose proof Hlast as Hsplit. apply last_Some in Hsplit.
  destruct Hsplit as [front Hfront].
  exists rates, (take 5 sorted), (drop 5 sorted), mx,
    (sum (drop 5 sorted) / 5).
  eexists. split; [|split; [|split; [|split; [|split; [|split;
    [|split; [|split; [|split; [|split]]]]]]]]].
  - unfold profile. unfold mbind at 1, M_bind at 1.
    rewrite time_time_first.
    unfold mbind at 1, M_bind at 1.
    rewrite (profile_loop_batches 9 [] _ fuel m 0 1 Hm Htick eq_refl).
    2: { replace (clock_reads (os m) + 1)%nat with (S (clock_reads (os m)))
           by lia. apply Htick. }
    cbn [app].
    replace (clock_reads (os m) + 1)%nat with (S (clock_reads (os m))) by lia.
    fold rates. cbv zeta. fold sorted.
    unfold mbind at 1, M_bind at 1, lift, py_last. rewrite Hlast.
    unfold mbind at 1, M_bind at 1, py_div. rewrite Hhigh.
    destruct (Req_dec_T (INR 5) 0) as [Hzero|_].
    { exfalso. cbn in Hzero. lra. }
    replace (INR 5) with 5 by (cbn; lra).
    reflexivity.
  - unfold advanced. cbn [os reads]. lia.
  - exact Hlen.
  - intros i Hi. unfold rates. rewrite batch_rates_lookup by exact Hi.
    replace (S (clock_reads (os m)) + 2 * i)%nat
      with (clock_reads (os m) + 2 * i + 1)%nat by lia.
    destruct i as [|i].
    + replace (clock_reads (os m) + 2 * 0)%nat with (clock_reads (os m))
        by lia. reflexivity.
    + replace (S (clock_reads (os m)) + 2 * i + 1)%nat
        with (clock_reads (os m) + 2 * S i)%nat by lia. reflexivity.
  - rewrite take_drop. symmetry. exact Hperm.
  - exact Hlow.
  - exact Hhigh.
  - intros a b Ha Hb.
    exact (StronglySorted_app_1_elem_of Rle _ _ a b Hsorted Ha Hb).
  - rewrite Hfront. apply elem_of_app. right. apply list_elem_of_singleton.
    reflexivity.
  - intros b Hb. apply StronglySorted_app_1_r in Hsorted.
    rewrite Hfront in Hsorted, Hb. apply elem_of_app in Hb.
    destruct Hb as [Hb|Hb].
    + apply (StronglySorted_app_1_elem_of Rle front [mx] b mx Hsorted Hb).
      apply list_elem_of_singleton. reflexivity.
    + apply list_elem_of_singleton in Hb. rewrite Hb. apply Rle_refl.
  - reflexivity.
Qed.

Lemma key_stream_answering : answering key_stream.
Proof.
  split; [exists pad; reflexivity|].
  split; [exists pad_buttons; reflexivity|].
  intros k. exists unmapped_key. split; [reflexivity|]. left. discriminate.
Qed.

Lemma key_stream_ticking : ticking (os key_stream).
Proof. intros k. change (INR k < INR (S k)). rewrite S_INR. lra. Qed.

(** On a clock that ticks once per reading every batch lasts one tick, so
    each rate is the number of reads of the batch: the profiler reports
    1001 and 1001 after 10010 reads. *)
Lemma profile_batches_witness :
  exists m',
    profile (10 * 1001 + 0) key_stream = (Ok (1001, 1001), m') /\
    reads (os m') = (reads (os key_stream) + 10 * 1001)%nat.
Proof.
  destruct (profile_batches 0 key_stream key_stream_answering key_stream_ticking)
    as (rates & low & high & mx & avg & m' & Hrun & Hreads & Hlen & Hrate &
        Hperm & Hlow & Hhigh & Hord & Hmx & Hmax & Havg).
  assert (Hall : forall x, x ∈ rates -> x = 1001).
  { intros x Hx. apply list_elem_of_lookup in Hx. destruct Hx as [i Hi].
    pose proof (lookup_lt_Some _ _ _ Hi) as Hlt. rewrite Hlen in Hlt.
    rewrite (Hrate i Hlt) in Hi. apply (inj Some) in Hi. rewrite <- Hi.
    change (1001 / (INR (0 + 2 * i + 1) - INR (0 + 2 * i)) = 1001).
    replace (0 + 2 * i + 1)%nat with (S (0 + 2 * i)) by lia.
    rewrite S_INR. field_simplify_eq; lra. }
  assert (Hhigh_all : forall x, x ∈ high -> x = 1001).
  { intros x Hx. apply Hall. rewrite Hperm. apply elem_of_app. right.
    exact Hx. }
  assert (Hmx1001 : mx = 1001) by (apply Hhigh_all, Hmx).
  assert (Havg1001 : avg = 1001).
  { rewrite Havg.
    destruct high as [|a [|b [|c [|d [|e [|f rest]]]]]]; try discriminate Hhigh.
    rewrite (Hhigh_all a), (Hhigh_all b), (Hhigh_all c), (Hhigh_all d),
      (Hhigh_all e) by (repeat constructor).
    unfold sum. cbn [fold_left]. lra. }
  exists m'. split; [|exact Hreads].
  rewrite Hrun, Hmx1001, Havg1001. reflexivity.
Defined.

(** * Further properties *)

(** ** The geometric mapper *)

Lemma sqrt_sqr_abs (x : R) : sqrt (x * x) = Rabs x.
Proof. apply sqrt_Rsqr_abs. Qed.

Lemma Rmax0_sqr (x : R) : Rmax (x * x) 0 = x * x.
Proof. apply Rmax_left. nra. Qed.

(** Half the difference of the distances to [-c] and to [c] is the
    clamped value. *)
Lemma half_abs_diff (c x : R) :
  0 <= c -> 0.5 * (Rabs (x + c) - Rabs (x - c)) = clamp (- c) c x.
Proof.
  intros Hc. unfold clamp, Rabs, Rmax, Rmin.
  destruct (Rcase_abs (x + c)); destruct (Rcase_abs (x - c));
    destruct (Rle_dec x c); destruct (Rle_dec (- c) x);
    destruct (Rle_dec (- c) c); lra.
Qed.

(** X1. Mirroring the stick in one axis mirrors the output in that axis
    and leaves the other output as it is. *)
Theorem circ_to_square_mirror (u v : R) :
  exists x y,
    circ_to_square u v = Ok (x, y) /\
    circ_to_square (- u) v = Ok (- x, y) /\
    circ_to_square u (- v) = Ok (x, - y).
Proof.
  exists (fst (to_square u v)), (snd (to_square u v)).
  rewrite !circ_to_square_eq. split; [reflexivity|].
  unfold to_square. cbn [fst snd]. split.
  - replace (2 + 2 * - u * sqrt 2 + - u * - u - v * v)
      with (2 - 2 * u * sqrt 2 + u*u - v*v) by ring.
    replace (2 - 2 * - u * sqrt 2 + - u * - u - v * v)
      with (2 + 2 * u * sqrt 2 + u*u - v*v) by ring.
    replace (2 + 2 * v * sqrt 2 - - u * - u + v * v)
      with (2 + 2 * v * sqrt 2 - u*u + v*v) by ring.
    replace (2 - 2 * v * sqrt 2 - - u * - u + v * v)
      with (2 - 2 * v * sqrt 2 - u*u + v*v) by ring.
    do 2 f_equal. ring.
  - replace (2 + 2 * u * sqrt 2 + u * u - - v * - v)
      with (2 + 2 * u * sqrt 2 + u*u - v*v) by ring.
    replace (2 - 2 * u * sqrt 2 + u * u - - v * - v)
      with (2 - 2 * u * sqrt 2 + u*u - v*v) by ring.
    replace (2 + 2 * - v * sqrt 2 - u * u + - v * - v)
      with (2 - 2 * v * sqrt 2 - u*u + v*v) by ring.
    replace (2 - 2 * - v * sqrt 2 - u * u + - v * - v)
      with (2 + 2 * v * sqrt 2 - u*u + v*v) by ring.
    do 2 f_equal. ring.
Qed.

Lemma to_square_swap (u v : R) :
  to_square v u = (snd (to_square u v), fst (to_square u v)).
Proof.
  unfold to_square. cbn [fst snd].
  replace (2 + 2 * v * sqrt 2 + v * v - u * u)
    with (2 + 2 * v * sqrt 2 - u*u + v*v) by ring.
  replace (2 - 2 * v * sqrt 2 + v * v - u * u)
    with (2 - 2 * v * sqrt 2 - u*u + v*v) by ring.
  replace (2 + 2 * u * sqrt 2 - v * v + u * u)
    with (2 + 2 * u * sqrt 2 + u*u - v*v) by ring.
  replace (2 - 2 * u * sqrt 2 - v * v + u * u)
    with (2 - 2 * u * sqrt 2 + u*u - v*v) by ring.
  reflexivity.
Qed.

(** X2. The two axes are treated alike: exchanging the inputs exchanges
    the outputs. *)
Theorem circ_to_square_swap (u v : R) :
  exists x y,
    circ_to_square u v = Ok (x, y) /\
    circ_to_square v u = Ok (y, x).
Proof.
  exists (fst (to_square u v)), (snd (to_square u v)).
  rewrite !circ_to_square_eq, to_square_swap.
  split; [|reflexivity]. destruct (to_square u v); reflexivity.
Qed.

Lemma sqrt2_pos : 0 < sqrt 2.
Proof. apply sqrt_lt_R0. lra. Qed.

(** One coordinate of [to_square] when the other input is zero. *)
Lemma coordinate_on_axis (p : R) :
  0.5 * ( sqrt (Rmax (2 + 2 * p * sqrt 2 + p*p - 0*0) 0)
        - sqrt (Rmax (2 - 2 * p * sqrt 2 + p*p - 0*0) 0))
  = clamp (- sqrt 2) (sqrt 2) p.
Proof.
  pose proof sqrt2_sqr as Hs. pose proof sqrt2_pos as Hpos.
  replace (2 + 2 * p * sqrt 2 + p*p - 0*0)
    with ((p + sqrt 2) * (p + sqrt 2)) by nra.
  replace (2 - 2 * p * sqrt 2 + p*p - 0*0)
    with ((p - sqrt 2) * (p - sqrt 2)) by nra.
  rewrite !Rmax0_sqr, !sqrt_sqr_abs.
  apply half_abs_diff. lra.
Qed.

(** X3. On an axis the mapper is the identity up to the square root of 2
    and constant beyond: a stick moved along one axis gives the stick value
    on that axis and 0 on the other. *)
Theorem circ_to_square_on_axis (p : R) :
  circ_to_square p 0 = Ok (clamp (- sqrt 2) (sqrt 2) p, 0) /\
  circ_to_square 0 p = Ok (0, clamp (- sqrt 2) (sqrt 2) p) /\
  (- sqrt 2 <= p <= sqrt 2 -> circ_to_square p 0 = Ok (p, 0)).
Proof.
  assert (Hsq : to_square p 0 = (clamp (- sqrt 2) (sqrt 2) p, 0)).
  { unfold to_square. rewrite coordinate_on_axis.
    replace (2 + 2 * 0 * sqrt 2 - p * p + 0 * 0) with (2 - p * p) by ring.
    replace (2 - 2 * 0 * sqrt 2 - p * p + 0 * 0) with (2 - p * p) by ring.
    f_equal. ring. }
  rewrite !circ_to_square_eq, (to_square_swap p 0), Hsq. cbn [fst snd].
  split; [reflexivity|]. split; [reflexivity|].
  intros [Hlo Hhi]. do 2 f_equal.
  unfold clamp. rewrite Rmin_left by exact Hhi. apply Rmax_right, Hlo.
Qed.

Lemma circ_to_square_on_axis_witness : circ_to_square 1 0 = Ok (1, 0).
Proof.
  pose proof sqrt2_sqr as Hs. pose proof sqrt2_pos as Hpos.
  apply (proj2 (proj2 (circ_to_square_on_axis 1))). split; nra.
Defined.

(** One coordinate of [to_square] on the unit circle. *)
Lemma coordinate_on_circle (p q : R) :
  p*p + q*q = 1 ->
  0.5 * ( sqrt (Rmax (2 + 2 * p * sqrt 2 + p*p - q*q) 0)
        - sqrt (Rmax (2 - 2 * p * sqrt 2 + p*p - q*q) 0))
  = clamp (- 1) 1 (sqrt 2 * p).
Proof.
  intros Hcircle. pose proof sqrt2_sqr as Hs.
  replace (2 + 2 * p * sqrt 2 + p*p - q*q)
    with ((sqrt 2 * p + 1) * (sqrt 2 * p + 1)) by nra.
  replace (2 - 2 * p * sqrt 2 + p*p - q*q)
    with ((sqrt 2 * p - 1) * (sqrt 2 * p - 1)) by nra.
  rewrite !Rmax0_sqr, !sqrt_sqr_abs.
  apply half_abs_diff. lra.
Qed.

Lemma clamp_unit_abs (x : R) : Rabs (clamp (- 1) 1 x) <= 1.
Proof.
  unfold clamp, Rabs, Rmax, Rmin.
  destruct (Rle_dec x 1); destruct (Rle_dec (- 1) x);
    destruct (Rle_dec (- 1) 1);
    match goal with |- context [Rcase_abs ?t] => destruct (Rcase_abs t) end;
    lra.
Qed.

Lemma clamp_unit_far (x : R) : 1 <= x * x -> Rabs (clamp (- 1) 1 x) = 1.
Proof.
  intros Hfar. unfold clamp, Rabs, Rmax, Rmin.
  destruct (Rle_dec x 1); destruct (Rle_dec (- 1) x);
    destruct (Rle_dec (- 1) 1);
    match goal with |- context [Rcase_abs ?t] => destruct (Rcase_abs t) end;
    nra.
Qed.

(** X4. The rim of the stick's circle goes to the rim of the square: for a
    stick position on the unit circle each output is the input times the
    square root of 2, held to [-1, 1], and the larger of the two is 1 in
    absolute value. *)
Theorem circ_to_square_on_circle (u v : R) :
  u * u + v * v = 1 ->
  circ_to_square u v
    = Ok (clamp (- 1) 1 (sqrt 2 * u), clamp (- 1) 1 (sqrt 2 * v)) /\
  Rmax (Rabs (clamp (- 1) 1 (sqrt 2 * u)))
       (Rabs (clamp (- 1) 1 (sqrt 2 * v))) = 1.
Proof.
  intros Hcircle. split.
  - rewrite circ_to_square_eq. unfold to_square.
    rewrite (coordinate_on_circle u v Hcircle).
    replace (2 + 2 * v * sqrt 2 - u*u + v*v)
      with (2 + 2 * v * sqrt 2 + v*v - u*u) by ring.
    replace (2 - 2 * v * sqrt 2 - u*u + v*v)
      with (2 - 2 * v * sqrt 2 + v*v - u*u) by ring.
    rewrite (coordinate_on_circle v u) by lra. reflexivity.
  - pose proof sqrt2_sqr as Hs.
    pose proof (clamp_unit_abs (sqrt 2 * u)) as Hx.
    pose proof (clamp_unit_abs (sqrt 2 * v)) as Hy.
    destruct (Rle_dec (1 / 2) (u * u)) as [Hu|Hu].
    + rewrite (clamp_unit_far (sqrt 2 * u)) by nra.
      apply Rmax_left. exact Hy.
    + rewrite (clamp_unit_far (sqrt 2 * v)) by nra.
      apply Rmax_right. exact Hx.
Qed.

Lemma circ_to_square_on_circle_witness :
  circ_to_square 0.6 0.8
    = Ok (clamp (- 1) 1 (sqrt 2 * 0.6), clamp (- 1) 1 (sqrt 2 * 0.8)).
Proof. apply (circ_to_square_on_circle 0.6 0.8). lra. Defined.

(** One coordinate of [to_square] has the sign of its input. *)
Lemma coordinate_sign (p q : R) :
  0 <= p ->
  0 <= 0.5 * ( sqrt (Rmax (2 + 2 * p * sqrt 2 + p*p - q*q) 0)
             - sqrt (Rmax (2 - 2 * p * sqrt 2 + p*p - q*q) 0)).
Proof.
  intros Hp. pose proof sqrt2_pos as Hpos.
  assert (Hle : Rmax (2 - 2 * p * sqrt 2 + p*p - q*q) 0
                <= Rmax (2 + 2 * p * sqrt 2 + p*p - q*q) 0).
  { apply Rle_max_compat_r. nra. }
  apply sqrt_le_1_alt in Hle. lra.
Qed.

Lemma to_square_sign (u v : R) :
  (0 <= u -> 0 <= fst (to_square u v)) /\
  (u <= 0 -> fst (to_square u v) <= 0) /\
  (0 <= v -> 0 <= snd (to_square u v)) /\
  (v <= 0 -> snd (to_square u v) <= 0).
Proof.
  unfold to_square. cbn [fst snd].
  replace (2 + 2 * v * sqrt 2 - u*u + v*v)
    with (2 + 2 * v * sqrt 2 + v*v - u*u) by ring.
  replace (2 - 2 * v * sqrt 2 - u*u + v*v)
    with (2 - 2 * v * sqrt 2 + v*v - u*u) by ring.
  repeat split; intros Hsign.
  - apply coordinate_sign, Hsign.
  - pose proof (coordinate_sign (- u) v ltac:(lra)) as H.
    replace (2 + 2 * - u * sqrt 2 + - u * - u - v*v)
      with (2 - 2 * u * sqrt 2 + u*u - v*v) in H by ring.
    replace (2 - 2 * - u * sqrt 2 + - u * - u - v*v)
      with (2 + 2 * u * sqrt 2 + u*u - v*v) in H by ring.
    lra.
  - apply coordinate_sign, Hsign.
  - pose proof (coordinate_sign (- v) u ltac:(lra)) as H.
    replace (2 + 2 * - v * sqrt 2 + - v * - v - u*u)
      with (2 - 2 * v * sqrt 2 + v*v - u*u) in H by ring.
    replace (2 - 2 * - v * sqrt 2 + - v * - v - u*u)
      with (2 + 2 * v * sqrt 2 + v*v - u*u) in H by ring.
    lra.
Qed.

(** X5. Each output has the sign of its own input, wherever the stick is:
    a push to one side never steers to the other. *)
Theorem circ_to_square_sign (u v : R) :
  exists x y,
    circ_to_square u v = Ok (x, y) /\
    (0 <= u -> 0 <= x) /\ (u <= 0 -> x <= 0) /\
    (0 <= v -> 0 <= y) /\ (v <= 0 -> y <= 0).
Proof.
  exists (fst (to_square u v)), (snd (to_square u v)).
  split; [rewrite circ_to_square_eq; reflexivity | apply to_square_sign].
Qed.

Lemma circ_to_square_sign_witness :
  exists x y, circ_to_square 0.5 (- 0.25) = Ok (x, y) /\ 0 <= x /\ y <= 0.
Proof.
  destruct (circ_to_square_sign 0.5 (- 0.25))
    as (x & y & Hrun & Hpos & _ & _ & Hneg).
  exists x, y. split; [exact Hrun|]. split; [apply Hpos | apply Hneg]; lra.
Defined.

(** ** The stick handlers: what the consumer gets *)



(** ** The scale handlers *)

Lemma machine_eta (m : machine) : {| self := self m; os := os m |} = m.
Proof. destruct m. reflexivity. Qed.

Lemma set_angle_scale_same (s : controller) (a : R) :
  a = angle_scale s -> set_angle_scale a s = s.
Proof. intros ->. destruct s. reflexivity. Qed.

Lemma set_throttle_scale_same (s : controller) (a : R) :
  a = throttle_scale s -> set_throttle_scale a s = s.
Proof. intros ->. destruct s. reflexivity. Qed.

(** [n] presses of a button whose handler moves a scale by [step]. *)
Lemma presses_angle_scale (handler : option R -> M unit) (sign : R) :
  (forall m, handler (Some 1) m =
             (Ok tt, {| self := set_angle_scale
                                  (angle_scale (self m)
                                   + sign * angle_scale_increment (self m))
                                  (self m);
                        os := os m |})) ->
  forall n m,
    presses n handler m =
    (Ok tt, {| self := set_angle_scale
                         (angle_scale (self m)
                          + INR n * (sign * angle_scale_increment (self m)))
                         (self m);
               os := os m |}).
Proof.
  intros Hstep n. induction n as [|n IH]; intros m.
  - cbn [presses]. rewrite set_angle_scale_same by (cbn [INR]; ring).
    rewrite machine_eta. reflexivity.
  - cbn [presses]. unfold mbind, M_bind. rewrite Hstep, IH.
    cbn [self os]. do 2 f_equal.
    change (set_angle_scale ?a (set_angle_scale ?b ?s))
      with (set_angle_scale a s).
    f_equal. rewrite S_INR. cbn. ring.
Qed.

Lemma presses_throttle_scale (handler : option R -> M unit) (sign : R) :
  (forall m, handler (Some 1) m =
             (Ok tt, {| self := set_throttle_scale
                                  (throttle_scale (self m)
                                   + sign * throttle_scale_increment (self m))
                                  (self m);
                        os := os m |})) ->
  forall n m,
    presses n handler m =
    (Ok tt, {| self := set_throttle_scale
                         (throttle_scale (self m)
                          + INR n * (sign * throttle_scale_increment (self m)))
                         (self m);
               os := os m |}).
Proof.
  intros Hstep n. induction n as [|n IH]; intros m.
  - cbn [presses]. rewrite set_throttle_scale_same by (cbn [INR]; ring).
    rewrite machine_eta. reflexivity.
  - cbn [presses]. unfold mbind, M_bind. rewrite Hstep, IH.
    cbn [self os]. do 2 f_equal.
    change (set_throttle_scale ?a (set_throttle_scale ?b ?s))
      with (set_throttle_scale a s).
    f_equal. rewrite S_INR. cbn. ring.
Qed.

Lemma increment_angle_scale_eq (m : machine) :
  increment_angle_scale (Some 1) m =
  (Ok tt, {| self := set_angle_scale
                       (angle_scale (self m)
                        + 1 * angle_scale_increment (self m)) (self m);
             os := os m |}).
Proof.
  unfold increment_angle_scale. rewrite py_eq_one. run_M.
  do 3 f_equal. ring.
Qed.

Lemma decrement_angle_scale_eq (m : machine) :
  decrement_angle_scale (Some 1) m =
  (Ok tt, {| self := set_angle_scale
                       (angle_scale (self m)
                        + (- 1) * angle_scale_increment (self m)) (self m);
             os := os m |}).
Proof.
  unfold decrement_angle_scale. rewrite py_eq_one. run_M.
  do 3 f_equal. ring.
Qed.

Lemma increment_throttle_scale_eq (m : machine) :
  increment_throttle_scale (Some 1) m =
  (Ok tt, {| self := set_throttle_scale
                       (throttle_scale (self m)
                        + 1 * throttle_scale_increment (self m)) (self m);
             os := os m |}).
Proof.
  unfold increment_throttle_scale. rewrite py_eq_one. run_M.
  do 3 f_equal. ring.
Qed.

Lemma decrement_throttle_scale_eq (m : machine) :
  decrement_throttle_scale (Some 1) m =
  (Ok tt, {| self := set_throttle_scale
                       (throttle_scale (self m)
                        + (- 1) * throttle_scale_increment (self m)) (self m);
             os := os m |}).
Proof.
  unfold decrement_throttle_scale. rewrite py_eq_one. run_M.
  do 3 f_equal. ring.
Qed.

(** X7. [n] presses of a scale button move that scale by [n] increments, up
    or down without bound, and change nothing else of the object: angle and
    throttle keep their values until the next stick event. As many presses
    down as up give the object back. *)
Theorem scale_presses (n : nat) (m : machine) :
  presses n increment_angle_scale m =
    (Ok tt, {| self := set_angle_scale
                         (angle_scale (self m)
                          + INR n * angle_scale_increment (self m)) (self m);
               os := os m |}) /\
  presses n decrement_angle_scale m =
    (Ok tt, {| self := set_angle_scale
                         (angle_scale (self m)
                          - INR n * angle_scale_increment (self m)) (self m);
               os := os m |}) /\
  presses n increment_throttle_scale m =
    (Ok tt, {| self := set_throttle_scale
                         (throttle_scale (self m)
                          + INR n * throttle_scale_increment (self m)) (self m);
               os := os m |}) /\
  presses n decrement_throttle_scale m =
    (Ok tt, {| self := set_throttle_scale
                         (throttle_scale (self m)
                          - INR n * throttle_scale_increment (self m)) (self m);
               os := os m |}) /\
  (presses n increment_angle_scale;; presses n decrement_angle_scale) m
    = (Ok tt, m) /\
  (presses n increment_throttle_scale;; presses n decrement_throttle_scale) m
    = (Ok tt, m).
Proof.
  pose proof (presses_angle_scale _ 1 increment_angle_scale_eq n) as Hia.
  pose proof (presses_angle_scale _ (- 1) decrement_angle_scale_eq n) as Hda.
  pose proof (presses_throttle_scale _ 1 increment_throttle_scale_eq n) as Hit.
  pose proof (presses_throttle_scale _ (- 1) decrement_throttle_scale_eq n)
    as Hdt.
  split; [|split; [|split; [|split; [|split]]]].
  - rewrite Hia. do 3 f_equal. ring.
  - rewrite Hda. do 3 f_equal. ring.
  - rewrite Hit. do 3 f_equal. ring.
  - rewrite Hdt. do 3 f_equal. ring.
  - unfold mbind, M_bind. rewrite Hia, Hda. cbn [self os].
    change (set_angle_scale ?a (set_angle_scale ?b ?s))
      with (set_angle_scale a s).
    rewrite set_angle_scale_same; [rewrite machine_eta; reflexivity|].
    cbn. ring.
  - unfold mbind, M_bind. rewrite Hit, Hdt. cbn [self os].
    change (set_throttle_scale ?a (set_throttle_scale ?b ?s))
      with (set_throttle_scale a s).
    rewrite set_throttle_scale_same; [rewrite machine_eta; reflexivity|].
    cbn. ring.
Qed.

(** ** Decoding an event *)

Lemma read_loop_raises_in_body (fuel : nat) (m : machine) (d0 : InputDevice)
    (event : InputEvent) :
  device (self m) = Some d0 ->
  incoming (os m) (reads (os m)) = Some event ->
  (btn_map (self m) = None ->
   read_loop fuel m =
   (Raise AttributeError,
    {| self := self m; os := set_reads (S (reads (os m))) (os m) |})) /\
  (forall bm,
     btn_map (self m) = Some bm ->
     type event = EV_ABS ->
     joystick_max_value (self m) = 0%Z ->
     read_loop fuel m =
     (Raise ZeroDivisionError,
      {| self := self m; os := set_reads (S (reads (os m))) (os m) |})).
Proof.
  intros Hdev Hin. split.
  - intros Hmap.
    unfold read_loop, try_except, next_event, read_device, btn_map_get.
    run_M. rewrite Hdev. cbn. rewrite Hin. cbn. rewrite Hmap. reflexivity.
  - intros bm Hmap Habs Hzero.
    unfold read_loop, try_except, next_event, read_device, btn_map_get.
    run_M. rewrite Hdev. cbn. rewrite Hin. cbn. rewrite Hmap. cbn.
    rewrite Habs, Z.eqb_refl. cbv beta iota. cbn [self].
    rewrite Hzero. unfold py_div.
    destruct (Req_dec_T (IZR 0) 0) as [_|Hne]; [reflexivity|contradiction].
Qed.

(** The read step on an axis event. *)
Lemma read_loop_axis_event (fuel : nat) (m : machine) (d0 : InputDevice)
    (bm : gmap Z string) (event : InputEvent) :
  device (self m) = Some d0 ->
  btn_map (self m) = Some bm ->
  incoming (os m) (reads (os m)) = Some event ->
  type event = EV_ABS ->
  joystick_max_value (self m) <> 0%Z ->
  read_loop fuel m =
  (Ok (bm !! code event,
       Some (IZR (value event) / IZR (joystick_max_value (self m)))),
   {| self := self m; os := set_reads (S (reads (os m))) (os m) |}).
Proof.
  intros Hdev Hmap Hin Habs Hdiv.
  rewrite (read_loop_event fuel m d0 bm event Hdev Hmap Hin (or_intror Hdiv)).
  unfold decoded. rewrite Habs. reflexivity.
Qed.

(** X8. A delivered event is returned under the name the button map gives
    its code; the value of a key event is passed on as it is, that of an
    axis event is divided by [joystick_max_value], which brings any value
    from [-joystick_max_value] to [joystick_max_value] into [-1, 1]. *)
Theorem read_loop_decodes (fuel : nat) (m : machine) (d0 : InputDevice)
    (bm : gmap Z string) (event : InputEvent) :
  device (self m) = Some d0 ->
  btn_map (self m) = Some bm ->
  incoming (os m) (reads (os m)) = Some event ->
  (type event <> EV_ABS ->
   read_loop fuel m =
   (Ok (bm !! code event, Some (IZR (value event))),
    {| self := self m; os := set_reads (S (reads (os m))) (os m) |})) /\
  (type event = EV_ABS ->
   joystick_max_value (self m) <> 0%Z ->
   read_loop fuel m =
   (Ok (bm !! code event,
        Some (IZR (value event) / IZR (joystick_max_value (self m)))),
    {| self := self m; os := set_reads (S (reads (os m))) (os m) |})) /\
  ((0 < joystick_max_value (self m))%Z ->
   (- joystick_max_value (self m) <= value event
    <= joystick_max_value (self m))%Z ->
   -1 <= IZR (value event) / IZR (joystick_max_value (self m)) <= 1).
Proof.
  intros Hdev Hmap Hin. split; [|split].
  - intros Hkey.
    rewrite (read_loop_event fuel m d0 bm event Hdev Hmap Hin (or_introl Hkey)).
    unfold decoded. destruct (Z.eqb_spec (type event) EV_ABS);
      [contradiction|reflexivity].
  - intros Habs Hdiv.
    exact (read_loop_axis_event fuel m d0 bm event Hdev Hmap Hin Habs Hdiv).
  - intros Hpos [Hlo Hhi].
    apply IZR_lt in Hpos. apply IZR_le in Hlo, Hhi. rewrite opp_IZR in Hlo.
    set (J := IZR (joystick_max_value (self m))) in *.
    set (V := IZR (value event)) in *.
    assert (Hinv : 0 < / J) by (apply Rinv_0_lt_compat; exact Hpos).
    assert (Hone : J * / J = 1) by (apply Rinv_r; lra).
    unfold Rdiv. split; nra.
Qed.

Lemma read_loop_decodes_witness :
  -1 <= IZR (value half_left) / IZR (joystick_max_value (self axis_stream))
  <= 1.
Proof.
  destruct (read_loop_decodes 0 axis_stream pad pad_buttons half_left
              eq_refl eq_refl eq_refl) as (_ & _ & Hrange).
  apply Hrange.
  - change (0 < 1280)%Z. reflexivity.
  - change (- 1280 <= -640 <= 1280)%Z. lia.
Defined.

(** X9. An axis event with [joystick_max_value] equal to 0 makes the read
    step raise [ZeroDivisionError], which the [except OSError] clause does
    not catch: the update step raises too, the event is used up and neither
    the last-seen map nor anything else of the object is written. *)
Theorem axis_event_zero_max (fuel : nat) (m : machine) (d0 : InputDevice)
    (bm : gmap Z string) (event : InputEvent) :
  device (self m) = Some d0 ->
  btn_map (self m) = Some bm ->
  incoming (os m) (reads (os m)) = Some event ->
  type event = EV_ABS ->
  joystick_max_value (self m) = 0%Z ->
  read_loop fuel m =
    (Raise ZeroDivisionError,
     {| self := self m; os := set_reads (S (reads (os m))) (os m) |}) /\
  update_state_from_loop fuel m =
    (Raise ZeroDivisionError,
     {| self := self m; os := set_reads (S (reads (os m))) (os m) |}).
Proof.
  intros Hdev Hmap Hin Habs Hzero.
  destruct (read_loop_raises_in_body fuel m d0 event Hdev Hin) as [_ Hraise].
  specialize (Hraise bm Hmap Habs Hzero).
  split; [exact Hraise|].
  rewrite update_state_from_loop_eq, Hraise. reflexivity.
Qed.

Lemma axis_event_zero_max_witness :
  update_state_from_loop 0
    {| self := set_joystick_max_value 0 (self axis_stream);
       os := os axis_stream |}
  = (Raise ZeroDivisionError,
     {| self := set_joystick_max_value 0 (self axis_stream);
        os := set_reads (S (reads (os axis_stream))) (os axis_stream) |}).
Proof.
  apply (axis_event_zero_max 0
           {| self := set_joystick_max_value 0 (self axis_stream);
              os := os axis_stream |}
           pad pad_buttons half_left eq_refl eq_refl eq_refl eq_refl eq_refl).
Defined.

(** X10. A configuration without a button map is accepted by [__init__],
    which stores [None]; from then on every read that delivers an event
    raises [AttributeError], and so does the update step, with the event
    used up and the object as it was. *)
Theorem missing_button_map (cfg : config_t) (d : InputDevice)
    (device_search_term_arg : option string) (verbose_arg : bool)
    (fuel : nat) (m : machine) :
  cfg_button_map cfg = None ->
  exists m',
    __init__ (Some d) cfg device_search_term_arg verbose_arg fuel m
      = (Ok tt, m') /\
    btn_map (self m') = None /\
    forall fuel' event,
      incoming (os m') (reads (os m')) = Some event ->
      update_state_from_loop fuel' m' =
      (Raise AttributeError,
       {| self := self m'; os := set_reads (S (reads (os m'))) (os m') |}).
Proof.
  intros Hcfg. rewrite init_eq. eexists. split; [reflexivity|].
  split; [exact Hcfg|].
  intros fuel' event Hin.
  rewrite update_state_from_loop_eq.
  match goal with
  | |- context [read_loop fuel' ?m1] =>
      destruct (read_loop_raises_in_body fuel' m1 d event eq_refl Hin)
        as [Hraise _]
  end.
  rewrite Hraise by exact Hcfg. reflexivity.
Qed.

Lemma missing_button_map_witness :
  exists m',
    __init__ (Some pad)
      {| cfg_button_map := None; cfg_joystick_max_value := None;
         cfg_device_search_term := None |} None false 0
      {| self := blank; os := world_of (fun _ => [pad])
                                (fun _ => Some unmapped_key) |}
      = (Ok tt, m') /\
    fst (update_state_from_loop 0 m') = Raise AttributeError.
Proof.
  destruct (missing_button_map
              {| cfg_button_map := None; cfg_joystick_max_value := None;
                 cfg_device_search_term := None |} pad None false 0
              {| self := blank; os := world_of (fun _ => [pad])
                                        (fun _ => Some unmapped_key) |}
              eq_refl) as (m' & Hinit & Hmap & Hstep).
  exists m'. split; [exact Hinit|].
  assert (Hm' : m' = snd (__init__ (Some pad)
              {| cfg_button_map := None; cfg_joystick_max_value := None;
                 cfg_device_search_term := None |} None false 0
              {| self := blank; os := world_of (fun _ => [pad])
                                        (fun _ => Some unmapped_key) |}))
    by (rewrite Hinit; reflexivity).
  rewrite (Hstep 0%nat unmapped_key); [reflexivity|].
  rewrite Hm'. reflexivity.
Defined.

(** ** From an event to the control state *)

(** X11. An axis event that the button map names LEFT_STICK_X is stored,
    scaled, as [u] and as the last-seen value of that name, and angle and
    throttle are recomputed from it and the stored [v]; one named
    LEFT_STICK_Y is stored as [v] in the same way. One event is used up. *)
Theorem stick_event_step (fuel : nat) (m : machine) (d0 : InputDevice)
    (bm : gmap Z string) (event : InputEvent) :
  device (self m) = Some d0 ->
  btn_map (self m) = Some bm ->
  incoming (os m) (reads (os m)) = Some event ->
  type event = EV_ABS ->
  joystick_max_value (self m) <> 0%Z ->
  (bm !! code event = Some "LEFT_STICK_X" ->
   exists m',
     update_state_from_loop fuel m = (Ok tt, m') /\
     u (self m') = IZR (value event) / IZR (joystick_max_value (self m)) /\
     v (self m') = v (self m) /\
     state (self m') =
       <[Some "LEFT_STICK_X" := Some (u (self m'))]> (state (self m)) /\
     angle (self m')
       = fst (to_square (u (self m')) (v (self m'))) * angle_scale (self m) /\
     throttle (self m')
       = snd (to_square (u (self m')) (v (self m')))
         * throttle_scale (self m) * y_axis_direction (self m) /\
     reads (os m') = S (reads (os m))) /\
  (bm !! code event = Some "LEFT_STICK_Y" ->
   exists m',
     update_state_from_loop fuel m = (Ok tt, m') /\
     v (self m') = IZR (value event) / IZR (joystick_max_value (self m)) /\
     u (self m') = u (self m) /\
     state (self m') =
       <[Some "LEFT_STICK_Y" := Some (v (self m'))]> (state (self m)) /\
     angle (self m')
       = fst (to_square (u (self m')) (v (self m'))) * angle_scale (self m) /\
     throttle (self m')
       = snd (to_square (u (self m')) (v (self m')))
         * throttle_scale (self m) * y_axis_direction (self m) /\
     reads (os m') = S (reads (os m))).
Proof.
  intros Hdev Hmap Hin Habs Hdiv.
  pose proof (read_loop_axis_event fuel m d0 bm event Hdev Hmap Hin Habs Hdiv)
    as Hread.
  split; intros Hname; eexists.
  - split.
    + rewrite update_state_from_loop_eq, Hread, Hname.
      change (dict_get func_map (Some "LEFT_STICK_X"))
        with (Some update_stick_x_map).
      cbv beta iota. rewrite update_stick_x_map_eq. reflexivity.
    + repeat split; reflexivity.
  - split.
    + rewrite update_state_from_loop_eq, Hread, Hname.
      change (dict_get func_map (Some "LEFT_STICK_Y"))
        with (Some update_stick_y_map).
      cbv beta iota. rewrite update_stick_y_map_eq. reflexivity.
    + repeat split; reflexivity.
Qed.

Lemma stick_event_step_witness :
  exists m',
    update_state_from_loop 0 axis_stream = (Ok tt, m') /\
    u (self m')
      = IZR (value half_left) / IZR (joystick_max_value (self axis_stream)).
Proof.
  assert (Hmax : joystick_max_value (self axis_stream) <> 0%Z)
    by (change (1280%Z <> 0%Z); discriminate).
  assert (Hname : pad_buttons !! code half_left = Some "LEFT_STICK_X")
    by (vm_compute; reflexivity).
  destruct (stick_event_step 0 axis_stream pad pad_buttons half_left
              eq_refl eq_refl eq_refl eq_refl Hmax) as [Hx _].
  destruct (Hx Hname) as (m' & Hstep & Hu & _).
  exists m'. split; [exact Hstep | exact Hu].
Defined.

Lemma dict_get_handled (name : string) :
  dict_get func_map (Some name) = None <-> ~ In name handled.
Proof.
  unfold handled. cbn [dict_get func_map In].
  repeat match goal with
         | |- context [String.eqb ?a name] =>
             destruct (String.eqb_spec a name) as [<-|?]
         end;
    split; intros H; try discriminate H; try tauto;
    exfalso; apply H; tauto.
Qed.

(** X12. An event whose name has no handler (every name but the ten of the
    dispatch table) is recorded in the last-seen map and changes nothing
    else of the object. *)
Theorem unhandled_event_step (fuel : nat) (m : machine) (d0 : InputDevice)
    (bm : gmap Z string) (event : InputEvent) (name : string) :
  device (self m) = Some d0 ->
  btn_map (self m) = Some bm ->
  incoming (os m) (reads (os m)) = Some event ->
  type event <> EV_ABS \/ joystick_max_value (self m) <> 0%Z ->
  bm !! code event = Some name ->
  ~ In name handled ->
  update_state_from_loop fuel m =
  (Ok tt,
   {| self := set_state (<[Some name := Some (decoded (self m) event)]>
                           (state (self m))) (self m);
      os := set_reads (S (reads (os m))) (os m) |}).
Proof.
  intros Hdev Hmap Hin Hdiv Hname Hnot.
  rewrite update_state_from_loop_eq.
  rewrite (read_loop_event fuel m d0 bm event Hdev Hmap Hin Hdiv), Hname.
  apply dict_get_handled in Hnot. rewrite Hnot. reflexivity.
Qed.

Lemma unhandled_event_step_witness :
  update_state_from_loop 0 home_stream =
  (Ok tt,
   {| self := set_state
                (<[Some "HOME" := Some (decoded (self home_stream) unmapped_key)]>
                   (state (self home_stream))) (self home_stream);
      os := set_reads (S (reads (os home_stream))) (os home_stream) |}).
Proof.
  assert (Hname : spare_buttons !! code unmapped_key = Some "HOME")
    by (vm_compute; reflexivity).
  assert (Hnot : ~ In "HOME" handled)
    by (unfold handled; cbn [In]; intros H;
        repeat (destruct H as [H|H]; [discriminate H|]); exact H).
  assert (Hkey : type unmapped_key <> EV_ABS
                 \/ joystick_max_value (self home_stream) <> 0%Z)
    by (left; discriminate).
  apply (unhandled_event_step 0 home_stream pad spare_buttons unmapped_key
           "HOME" eq_refl eq_refl eq_refl Hkey Hname Hnot).
Defined.

(** ** What every update step keeps *)

Lemma consistent_set_device (dev : option InputDevice) (s : controller) :
  consistent s -> consistent (set_device dev s).
Proof. intros H. exact H. Qed.

Lemma consistent_set_state (st : gmap (option string) (option R))
    (s : controller) :
  consistent s -> consistent (set_state st s).
Proof. intros H. exact H. Qed.

(** A handler of the dispatch table, called with a number on a consistent
    object, returns; the object stays consistent and keeps its wiring and
    its last-seen map, and the world is not touched. *)
Lemma handler_runs (key : string) (func : option R -> M unit) (r : R)
    (m : machine) :
  dict_get func_map (Some key) = Some func ->
  consistent (self m) ->
  exists m',
    func (Some r) m = (Ok tt, m') /\
    consistent (self m') /\
    wiring (self m') = wiring (self m) /\
    state (self m') = state (self m) /\
    os m' = os m.
Proof.
  intros Hfunc Hcons. handler_cases Hfunc.
  - eexists. split; [apply update_stick_x_map_eq|].
    repeat split; try reflexivity; apply Hcons.
  - eexists. split; [apply update_stick_y_map_eq|].
    repeat split; try reflexivity; apply Hcons.
  - unfold start_recording. destruct (py_eq (Some r) 1); eexists;
      (split; [reflexivity|]); repeat split; try reflexivity; apply Hcons.
  - unfold stop_recording. destruct (py_eq (Some r) 1); eexists;
      (split; [reflexivity|]); repeat split; try reflexivity; apply Hcons.
  - unfold set_drive_mode_manual. destruct (py_eq (Some r) 1); eexists;
      (split; [reflexivity|]); repeat split; try reflexivity; try apply Hcons.
    left. reflexivity.
  - unfold toggle_drive_mode_autonomous.
    destruct (py_eq (Some r) 1).
    2: { eexists. split; [reflexivity|].
         repeat split; try reflexivity; apply Hcons. }
    run_M.
    destruct Hcons as (Hrun & Hdir & Hai & Hti & [Hmode|[Hphase|Hphase]]).
    + rewrite Hmode. cbn. eexists. split; [reflexivity|].
      repeat split; try assumption.
      right. left. split; reflexivity.
    + destruct Hphase as [Hmode Hcycle]. rewrite Hmode. cbn.
      rewrite Hcycle. cbn. eexists. split; [reflexivity|].
      repeat split; try assumption.
      right. right. split; reflexivity.
    + destruct Hphase as [Hmode Hcycle]. rewrite Hmode. cbn.
      rewrite Hcycle. cbn. eexists. split; [reflexivity|].
      repeat split; try assumption.
      right. left. split; reflexivity.
  - unfold increment_angle_scale. destruct (py_eq (Some r) 1); eexists;
      (split; [reflexivity|]); repeat split; try reflexivity; apply Hcons.
  - unfold decrement_angle_scale. destruct (py_eq (Some r) 1); eexists;
      (split; [reflexivity|]); repeat split; try reflexivity; apply Hcons.
  - unfold increment_throttle_scale. destruct (py_eq (Some r) 1); eexists;
      (split; [reflexivity|]); repeat split; try reflexivity; apply Hcons.
  - unfold decrement_throttle_scale. destruct (py_eq (Some r) 1); eexists;
      (split; [reflexivity|]); repeat split; try reflexivity; apply Hcons.
Qed.

(** The read step never pairs a button name with [None]. *)
Lemma read_loop_named_value (fuel : nat) (m m1 : machine) (key : string)
    (val : option R) :
  read_loop fuel m = (Ok (Some key, val), m1) -> exists r, val = Some r.
Proof.
  unfold read_loop, try_except, next_event, read_device, btn_map_get. run_M.
  destruct (device (self m)) as [d0|]; cbn; [|discriminate].
  destruct (incoming (os m) (reads (os m))) as [event|]; cbn.
  - destruct (btn_map (self m)) as [bm|]; cbn; [|discriminate].
    destruct (type event =? EV_ABS)%Z; cbn.
    + unfold py_div.
      destruct (Req_dec_T (IZR (joystick_max_value (self m))) 0); cbn;
        [discriminate|].
      intros H. eexists.
      apply (f_equal (fun p => snd (match fst p with
                                    | Ok x => x
                                    | _ => (None, None)
                                    end))) in H.
      symmetry. exact H.
    + intros H. eexists.
      apply (f_equal (fun p => snd (match fst p with
                                    | Ok x => x
                                    | _ => (None, None)
                                    end))) in H.
      symmetry. exact H.
  - unfold time_sleep. run_M.
    match goal with
    | |- context [load_device fuel ?t ?m0] =>
        destruct (load_device fuel t m0) as [[[]| |] m2]
    end; discriminate.
Qed.

(** An update step on a consistent object: it returns whenever its read
    step does. *)
Lemma update_step_consistent (fuel : nat) (m m1 : machine)
    (btn : option string) (val : option R) :
  consistent (self m) ->
  read_loop fuel m = (Ok (btn, val), m1) ->
  exists m2,
    update_state_from_loop fuel m = (Ok tt, m2) /\
    consistent (self m2) /\
    wiring (self m2) = wiring (self m1) /\
    os m2 = os m1.
Proof.
  intros Hcons Hread.
  destruct (read_loop_self fuel m) as [dev Hself].
  rewrite Hread in Hself. cbn [snd] in Hself.
  rewrite update_state_from_loop_eq, Hread.
  destruct (dict_get func_map btn) as [func|] eqn:Hfunc.
  - destruct btn as [key|]; [|discriminate Hfunc].
    destruct (read_loop_named_value fuel m m1 key val Hread) as [r ->].
    match goal with
    | |- context [func (Some r) ?m0] =>
        destruct (handler_runs key func r m0 Hfunc)
          as (m2 & Hrun & Hcons2 & Hwire & _ & Hos)
    end.
    { cbn [self]. apply consistent_set_state. rewrite Hself.
      apply consistent_set_device, Hcons. }
    exists m2. split; [exact Hrun|]. split; [exact Hcons2|].
    split; [|exact Hos].
    rewrite Hwire. reflexivity.
  - eexists. split; [reflexivity|]. cbn [self os].
    split; [|split; reflexivity].
    apply consistent_set_state. rewrite Hself.
    apply consistent_set_device, Hcons.
Qed.

(** X13. [__init__] leaves a consistent object: the drive mode is "user",
    "local_angle" or "local" and in step with the autonomous cycle, the
    throttle sign is -1, both increments are 0.05 and [running] is off. Every
    update step keeps it so, and on such an object no handler raises: the
    step returns whenever its read step returns. *)
Theorem consistent_object :
  (forall event_input_device cfg device_search_term_arg verbose_arg fuel m m',
      __init__ event_input_device cfg device_search_term_arg verbose_arg
        fuel m = (Ok tt, m') ->
      consistent (self m')) /\
  (forall s, consistent s ->
             In (drive_mode s) ["user"; "local_angle"; "local"]) /\
  (forall fuel m,
      consistent (self m) ->
      consistent (self (snd (update_state_from_loop fuel m))) /\
      (forall btn val m1,
          read_loop fuel m = (Ok (btn, val), m1) ->
          fst (update_state_from_loop fuel m) = Ok tt)).
Proof.
  split; [|split].
  - intros eid cfg ta vb fuel m m' Hinit. rewrite init_eq in Hinit.
    assert (Hrest : consistent (at_rest cfg ta vb)).
    { repeat split; try reflexivity. left. reflexivity. }
    destruct eid as [d|].
    + injection Hinit as <-. exact Hrest.
    + match type of Hinit with
      | load_device fuel ?t ?m0 = _ =>
          destruct (load_device_self fuel t m0) as [dev Hself]
      end.
      rewrite Hinit in Hself. cbn [snd self] in Hself. rewrite Hself.
      apply consistent_set_device, Hrest.
  - intros s (_ & _ & _ & _ & [Hmode|[[Hmode _]|[Hmode _]]]);
      rewrite Hmode; cbn; tauto.
  - intros fuel m Hcons. split.
    + destruct (read_loop fuel m) as [[[btn val]| |] m1] eqn:Hread.
      * destruct (update_step_consistent fuel m m1 btn val Hcons Hread)
          as (m2 & Hstep & Hcons2 & _).
        rewrite Hstep. exact Hcons2.
      * rewrite update_state_from_loop_eq, Hread. cbn [snd].
        destruct (read_loop_self fuel m) as [dev Hself].
        rewrite Hread in Hself. cbn [snd] in Hself. rewrite Hself.
        apply consistent_set_device, Hcons.
      * rewrite update_state_from_loop_eq, Hread. cbn [snd].
        destruct (read_loop_self fuel m) as [dev Hself].
        rewrite Hread in Hself. cbn [snd] in Hself. rewrite Hself.
        apply consistent_set_device, Hcons.
    + intros btn val m1 Hread.
      destruct (update_step_consistent fuel m m1 btn val Hcons Hread)
        as (m2 & Hstep & _).
      rewrite Hstep. reflexivity.
Qed.

Lemma started_eq (w : world) :
  __init__ (Some pad) pad_config None false 0 {| self := blank; os := w |}
  = (Ok tt, started w).
Proof. unfold started. rewrite init_eq. reflexivity. Qed.

Lemma consistent_object_witness :
  consistent (self key_stream) /\
  fst (update_state_from_loop 0 key_stream) = Ok tt /\
  consistent (self (snd (update_state_from_loop 0 key_stream))).
Proof.
  destruct consistent_object as (Hinit & _ & Hstep).
  assert (Hcons : consistent (self key_stream)).
  { apply (Hinit (Some pad) pad_config None false 0%nat
             {| self := blank;
                os := world_of (fun _ => [pad]) (fun _ => Some unmapped_key) |}
             key_stream).
    apply started_eq. }
  destruct (Hstep 0%nat key_stream Hcons) as [Hkeeps Hreturns].
  split; [exact Hcons|]. split; [|exact Hkeeps].
  assert (Hkey : type unmapped_key <> EV_ABS
                 \/ joystick_max_value (self key_stream) <> 0%Z)
    by (left; discriminate).
  exact (Hreturns _ _ _
           (read_loop_event 0 key_stream pad pad_buttons unmapped_key
              eq_refl eq_refl eq_refl Hkey)).
Defined.

(** ** The endless loop *)

(** An update step on an answering, consistent controller uses up one
    event and leaves the controller answering and consistent. *)
Lemma update_step_answering (fuel : nat) (m : machine) :
  answering m ->
  consistent (self m) ->
  exists m2,
    update_state_from_loop fuel m = (Ok tt, m2) /\
    answering m2 /\
    consistent (self m2) /\
    reads (os m2) = S (reads (os m)).
Proof.
  intros Hans Hcons.
  pose proof Hans as ([d0 Hdev] & [bm Hmap] & Hevents).
  destruct (Hevents (reads (os m))) as (event & Hin & Hdiv).
  pose proof (read_loop_event fuel m d0 bm event Hdev Hmap Hin Hdiv) as Hread.
  destruct (update_step_consistent fuel m _ _ _ Hcons Hread)
    as (m2 & Hstep & Hcons2 & Hwire & Hos).
  exists m2. split; [exact Hstep|].
  cbn [self os] in Hwire, Hos.
  assert (Hd : device (self m2) = device (self m))
    by exact (f_equal (fun w => fst (fst (fst (fst (fst w))))) Hwire).
  assert (Hb : btn_map (self m2) = btn_map (self m))
    by exact (f_equal (fun w => snd (fst (fst (fst (fst w))))) Hwire).
  assert (Hj : joystick_max_value (self m2) = joystick_max_value (self m))
    by exact (f_equal (fun w => snd (fst (fst (fst w)))) Hwire).
  split; [|split; [exact Hcons2 | rewrite Hos; reflexivity]].
  split; [exists d0; rewrite Hd; exact Hdev|].
  split; [exists bm; rewrite Hb; exact Hmap|].
  intros k. rewrite Hos, Hj. exact (Hevents k).
Qed.

(** X14. [update] never returns: it ends only with an exception (or, cut
    short, out of fuel). On a consistent controller whose device answers
    every read it raises nothing either: each of its steps uses up one event
    and it goes on for as long as it is let. *)
Theorem update_never_returns :
  (forall fuel m,
      fst (update fuel m) = OutOfFuel \/
      exists e, fst (update fuel m) = Raise e) /\
  (forall fuel m,
      answering m ->
      consistent (self m) ->
      exists m',
        update fuel m = (OutOfFuel, m') /\
        reads (os m') = (reads (os m) + fuel)%nat /\
        answering m' /\
        consistent (self m')).
Proof.
  split.
  - induction fuel as [|fuel IH]; intros m; [left; reflexivity|].
    cbn [update]. unfold mbind, M_bind.
    destruct (update_state_from_loop fuel m) as [[[]|e|] m1].
    + apply IH.
    + right. exists e. reflexivity.
    + left. reflexivity.
  - induction fuel as [|fuel IH]; intros m Hans Hcons.
    + exists m. split; [reflexivity|]. split; [lia|]. split; assumption.
    + destruct (update_step_answering fuel m Hans Hcons)
        as (m1 & Hstep & Hans1 & Hcons1 & Hreads1).
      destruct (IH m1 Hans1 Hcons1) as (m' & Hrest & Hreads & Hans' & Hcons').
      exists m'. split.
      * cbn [update]. unfold mbind, M_bind. rewrite Hstep. exact Hrest.
      * split; [lia|]. split; assumption.
Qed.

Lemma update_never_returns_witness :
  exists m',
    update 25 key_stream = (OutOfFuel, m') /\
    reads (os m') = (reads (os key_stream) + 25)%nat.
Proof.
  destruct update_never_returns as [_ Hruns].
  assert (Hcons : consistent (self key_stream)).
  { repeat split; try reflexivity. left. reflexivity. }
  destruct (Hruns 25%nat key_stream key_stream_answering Hcons)
    as (m' & Hrun & Hreads & _).
  exists m'. split; [exact Hrun | exact Hreads].
Defined.

(** ** The profiler, further *)

Lemma time_time_self (m : machine) : self (snd (time_time m)) = self m.
Proof. reflexivity. Qed.

Lemma profile_loop_self (fuel : nat) :
  forall (e : Z) (start : R) (results : list R) (m : machine),
    exists dev,
      self (snd (profile_loop fuel e start results m)) = set_device dev (self m).
Proof.
  induction fuel as [|fuel IH]; intros e start results m.
  - exists (device (self m)). cbn. rewrite set_device_same. reflexivity.
  - cbn [profile_loop]. unfold mbind at 1, M_bind at 1.
    destruct (read_loop_self fuel m) as [dev Hself].
    destruct (read_loop fuel m) as [[x| |] m1]; cbn [snd] in Hself;
      try (exists dev; exact Hself).
    destruct ((e + 1 >? 1000)%Z).
    + unfold mbind at 1, M_bind at 1, time_time at 1. cbv zeta.
      unfold mbind at 1, M_bind at 1, lift.
      match goal with
      | |- context [py_div ?a ?b] => destruct (py_div a b) as [rate| |]
      end; try (exists dev; exact Hself).
      unfold mbind at 1, M_bind at 1, time_time at 1. cbv zeta.
      match goal with
      | |- context [(9 <? ?n)%nat] => destruct (9 <? n)%nat
      end.
      * exists dev. exact Hself.
      * match goal with
        | |- context [profile_loop fuel ?e' ?s' ?r' ?m'] =>
            destruct (IH e' s' r' m') as [dev' Hself']
        end.
        exists dev'. rewrite Hself'. cbn [self]. rewrite Hself. reflexivity.
    + destruct (IH (e + 1)%Z start results m1) as [dev' Hself'].
      exists dev'. rewrite Hself', Hself. reflexivity.
Qed.

(** X15. [profile] only observes: however it ends, the object differs from
    the one it started on in the device attribute at most (after a
    reconnection), so the events it reads are dropped: control state and
    last-seen map are as before. *)
Theorem profile_only_observes (fuel : nat) (m : machine) :
  exists dev,
    self (snd (profile fuel m)) = set_device dev (self m) /\
    control (self (snd (profile fuel m))) = control (self m) /\
    state (self (snd (profile fuel m))) = state (self m).
Proof.
  assert (H : exists dev,
             self (snd (profile fuel m)) = set_device dev (self m)).
  { unfold profile. unfold mbind at 1, M_bind at 1, time_time at 1. cbv zeta.
    unfold mbind at 1, M_bind at 1.
    match goal with
    | |- context [profile_loop fuel ?e' ?s' ?r' ?m'] =>
        destruct (profile_loop_self fuel e' s' r' m') as [dev Hself];
        destruct (profile_loop fuel e' s' r' m') as [[results| |] m1]
    end; cbn [snd self] in Hself; try (exists dev; exact Hself).
    unfold mbind at 1, M_bind at 1, lift.
    match goal with
    | |- context [py_last ?l] => destruct (py_last l) as [x| |]
    end; try (exists dev; exact Hself).
    unfold mbind at 1, M_bind at 1.
    match goal with
    | |- context [py_div ?a ?b] => destruct (py_div a b) as [x'| |]
    end; exists dev; exact Hself. }
  destruct H as [dev Hself]. exists dev.
  split; [exact Hself|]. rewrite Hself. split; reflexivity.
Qed.

(** Reads of a batch that do not complete it. *)
Lemma profile_loop_reads (n : nat) :
  forall (e : Z) (fuel : nat) (start : R) (results : list R) (m : machine)
         (r c : nat),
    answering m ->
    (e + Z.of_nat n <= 1000)%Z ->
    profile_loop (n + fuel) e start results
      {| self := self m; os := advanced r c (os m) |} =
    profile_loop fuel (e + Z.of_nat n) start results
      {| self := self m; os := advanced (r + n) c (os m) |}.
Proof.
  induction n as [|n IH]; intros e fuel start results m r c Hm He.
  - cbn [Nat.add]. replace (e + Z.of_nat 0)%Z with e by lia.
    replace (r + 0)%nat with r by lia. reflexivity.
  - change (S n + fuel)%nat with (S (n + fuel)). cbn [profile_loop].
    unfold mbind at 1, M_bind at 1.
    destruct (read_loop_answering (n + fuel) r c m Hm) as [x ->].
    assert (Hnot : ((e + 1) >? 1000)%Z = false)
      by (rewrite Z.gtb_ltb; apply Z.ltb_ge; lia).
    rewrite Hnot.
    rewrite (IH (e + 1)%Z fuel start results m (S r) c Hm) by lia.
    replace (e + 1 + Z.of_nat n)%Z with (e + Z.of_nat (S n))%Z by lia.
    replace (S r + n)%nat with (r + S n)%nat by lia.
    reflexivity.
Qed.

(** X16. When the clock reads the same at the end of the first batch as at
    the start of [profile], the rate's division raises
    [ZeroDivisionError]: [profile] ends there, after 1001 reads and two
    clock readings, with no rate reported. *)
Theorem profile_stalled_clock (fuel : nat) (m : machine) :
  answering m ->
  clock (os m) (S (clock_reads (os m))) = clock (os m) (clock_reads (os m)) ->
  profile (1001 + fuel) m =
  (Raise ZeroDivisionError,
   {| self := self m; os := advanced 1001 2 (os m) |}).
Proof.
  intros Hm Hstall.
  unfold profile. unfold mbind at 1, M_bind at 1.
  rewrite time_time_first.
  replace (1001 + fuel)%nat with (1000 + S fuel)%nat by lia.
  unfold mbind at 1, M_bind at 1.
  rewrite (profile_loop_reads 1000 0%Z (S fuel) _ [] m 0 1 Hm) by lia.
  cbn [profile_loop]. unfold mbind at 1, M_bind at 1.
  destruct (read_loop_answering fuel (0 + 1000) 1 m Hm) as [x ->].
  change (0 + Z.of_nat 1000 + 1 >? 1000)%Z with true. cbv iota.
  unfold mbind at 1, M_bind at 1. rewrite time_time_advanced.
  unfold mbind at 1, M_bind at 1, lift, py_div.
  replace (clock_reads (os m) + 1)%nat with (S (clock_reads (os m))) by lia.
  rewrite Hstall.
  destruct (Req_dec_T (clock (os m) (clock_reads (os m))
                       - clock (os m) (clock_reads (os m))) 0) as [_|Hne].
  - reflexivity.
  - exfalso. apply Hne. ring.
Qed.

Lemma frozen_clock_answering : answering frozen_clock.
Proof.
  split; [exists pad; reflexivity|].
  split; [exists pad_buttons; reflexivity|].
  intros k. exists unmapped_key. split; [reflexivity|]. left. discriminate.
Qed.

Lemma profile_stalled_clock_witness :
  profile (1001 + 0) frozen_clock =
  (Raise ZeroDivisionError,
   {| self := self frozen_clock; os := advanced 1001 2 (os frozen_clock) |}).
Proof.
  apply (profile_stalled_clock 0 frozen_clock frozen_clock_answering).
  reflexivity.
Defined.

(** ** Looking a device up, further *)

Lemma str_in_empty (s : string) : str_in "" s = true.
Proof. destruct s; reflexivity. Qed.

Lemma matching_empty_term (devices : list InputDevice) :
  matching "" devices = devices.
Proof.
  unfold matching. change (lower "") with "".
  induction devices as [|d rest IH]; [reflexivity|].
  cbn [List.filter]. rewrite str_in_empty, IH. reflexivity.
Qed.

(** X17. The empty search term matches every device: the lookup returns
    the attached device when there is exactly one, whatever its name, and
    raises [ValueError] as soon as two are attached. As the constructor's
    argument the empty string counts as no argument. *)
Theorem empty_search_term (m : machine) :
  (forall devices, matching "" devices = devices) /\
  find_input_device (PyStr "") m =
    (match attached (os m) (enumerations (os m)) with
     | [] => Ok None
     | [d] => Ok (Some d)
     | _ :: _ :: _ => Raise ValueError
     end,
     {| self := self m;
        os := set_enumerations (S (enumerations (os m))) (os m) |}) /\
  (forall event_input_device cfg verbose_arg fuel,
      __init__ event_input_device cfg (Some "") verbose_arg fuel m =
      __init__ event_input_device cfg None verbose_arg fuel m).
Proof.
  split; [exact matching_empty_term|]. split.
  - rewrite find_input_device_eq, matching_empty_term. reflexivity.
  - intros eid cfg vb fuel. rewrite !init_eq. reflexivity.
Qed.

Lemma find_input_device_int (z : Z) (m : machine) :
  find_input_device (PyInt z) m =
  (match attached (os m) (enumerations (os m)) with
   | [] => Ok None
   | _ :: _ => Raise AttributeError
   end,
   {| self := self m;
      os := set_enumerations (S (enumerations (os m))) (os m) |}).
Proof.
  unfold find_input_device, all_input_devices. run_M.
  destruct (attached (os m) (enumerations (os m))); reflexivity.
Qed.

(** With nothing attached the retry loop goes on, whatever the term. *)
Lemma load_device_loop_nothing_attached (z : Z) (k : nat) :
  forall (fuel : nat) (m : machine),
    (forall j, (j < k)%nat ->
       attached (os m) (enumerations (os m) + j) = []) ->
    load_device_loop (k + fuel) (PyInt z) m =
    load_device_loop fuel (PyInt z)
      {| self := self m; os := missed k (os m) |}.
Proof.
  induction k as [|k IH]; intros fuel m Hnone.
  - rewrite missed_0. destruct m. reflexivity.
  - cbn [Nat.add load_device_loop]. unfold mbind at 1, M_bind at 1.
    rewrite find_input_device_int.
    pose proof (Hnone 0%nat ltac:(lia)) as H0. rewrite Nat.add_0_r in H0.
    rewrite H0. unfold time_sleep. run_M.
    rewrite IH.
    + cbn. rewrite missed_S. reflexivity.
    + intros j Hj. cbn. specialize (Hnone (S j) ltac:(lia)).
      rewrite Nat.add_succ_r in Hnone. exact Hnone.
Qed.

(** X18. When neither the argument nor the configuration gives a search
    term, the term is the integer 1280, which has no [lower]: construction
    without a device raises [AttributeError] at the first lookup that finds
    any input device at all, and until then it keeps looking. *)
Theorem default_search_term (cfg : config_t) (verbose_arg : bool)
    (m : machine) :
  cfg_device_search_term cfg = None ->
  (forall k fuel,
      (forall j, (j < k)%nat ->
         attached (os m) (enumerations (os m) + j) = []) ->
      attached (os m) (enumerations (os m) + k) <> [] ->
      fst (__init__ None cfg None verbose_arg (k + S fuel) m)
        = Raise AttributeError) /\
  (forall fuel,
      (forall j, (j < fuel)%nat ->
         attached (os m) (enumerations (os m) + j) = []) ->
      fst (__init__ None cfg None verbose_arg fuel m) = OutOfFuel).
Proof.
  intros Hcfg. split.
  - intros k fuel Hnone Hsome. rewrite init_eq.
    cbn [device_search_term at_rest py_or]. rewrite Hcfg. cbn [default].
    unfold load_device, mbind, M_bind.
    rewrite load_device_loop_nothing_attached by exact Hnone.
    cbn [load_device_loop]. unfold mbind, M_bind.
    rewrite find_input_device_int. cbn [os missed enumerations attached].
    destruct (attached (os m) (enumerations (os m) + k));
      [contradiction|reflexivity].
  - intros fuel Hnone. rewrite init_eq.
    cbn [device_search_term at_rest py_or]. rewrite Hcfg. cbn [default].
    unfold load_device, mbind, M_bind.
    rewrite <- (Nat.add_0_r fuel) at 1.
    rewrite load_device_loop_nothing_attached by exact Hnone.
    reflexivity.
Qed.

Lemma default_search_term_witness :
  fst (__init__ None
         {| cfg_button_map := Some pad_buttons;
            cfg_joystick_max_value := None;
            cfg_device_search_term := None |} None false (0 + 1)
         {| self := blank; os := world_of (fun _ => [keyboard])
                                   (fun _ => None) |})
  = Raise AttributeError.
Proof.
  destruct (default_search_term
              {| cfg_button_map := Some pad_buttons;
                 cfg_joystick_max_value := None;
                 cfg_device_search_term := None |} false
              {| self := blank; os := world_of (fun _ => [keyboard])
                                        (fun _ => None) |} eq_refl)
    as [Hraise _].
  apply (Hraise 0%nat 0%nat).
  - intros j Hj. lia.
  - discriminate.
Defined.

(** X19. The device a lookup returns is attached, its name contains the
    term up to case, and it is the only attached device of which that
    holds; the case of the term plays no part in the lookup. *)
Theorem found_device (term : string) (m : machine) :
  (forall d m',
      find_input_device (PyStr term) m = (Ok (Some d), m') ->
      In d (attached (os m) (enumerations (os m))) /\
      contains_ci (name d) term /\
      (forall d', In d' (attached (os m) (enumerations (os m))) ->
                  contains_ci (name d') term -> d' = d)) /\
  (forall term',
      lower term' = lower term ->
      find_input_device (PyStr term') m = find_input_device (PyStr term) m).
Proof.
  split.
  - intros d m' Hfind. rewrite find_input_device_eq in Hfind.
    destruct (matching term (attached (os m) (enumerations (os m))))
      as [|d1 [|d2 rest]] eqn:Hmatch; try discriminate Hfind.
    assert (Hd : d1 = d) by congruence. subst d1.
    assert (Hin : In d (matching term
                          (attached (os m) (enumerations (os m)))))
      by (rewrite Hmatch; left; reflexivity).
    apply matching_spec in Hin. destruct Hin as [Hin Hname].
    split; [exact Hin|]. split; [exact Hname|].
    intros d' Hin' Hname'.
    assert (H : In d' (matching term
                         (attached (os m) (enumerations (os m)))))
      by (apply matching_spec; split; assumption).
    rewrite Hmatch in H. destruct H as [H|[]]. symmetry. exact H.
  - intros term' Hlower. rewrite !find_input_device_eq.
    unfold matching. rewrite Hlower. reflexivity.
Qed.

Lemma found_device_witness :
  In pad [keyboard; pad] /\ contains_ci (name pad) "NINTENDO".
Proof.
  destruct (found_device "NINTENDO"
              (started (world_of (fun _ => [keyboard; pad]) (fun _ => None))))
    as [Hfound _].
  destruct (Hfound pad
              {| self := self (started (world_of (fun _ => [keyboard; pad])
                                          (fun _ => None)));
                 os := set_enumerations 1
                         (os (started (world_of (fun _ => [keyboard; pad])
                                         (fun _ => None)))) |})
    as (Hin & Hname & _).
  - rewrite find_input_device_eq. reflexivity.
  - split; [exact Hin | exact Hname].
Defined.

(** ** The mapper covers the square *)

Lemma onto_radicand (s a b x y sign : R) :
  s * s = 2 -> a * a = 1 - y * y / 2 -> b * b = 1 - x * x / 2 ->
  sign * sign = 1 ->
  2 + sign * (2 * (x * a) * s) + (x * a) * (x * a) - (y * b) * (y * b)
  = (s * a + sign * x) * (s * a + sign * x).
Proof.
  intros Hs Ha Hb Hsign.
  transitivity (2 + sign * (2 * x * a * s) + x * x * (a * a) - y * y * (b * b));
    [ring|].
  rewrite Ha, Hb.
  transitivity (s * s * (a * a) + sign * (2 * s * a * x) + sign * sign * (x * x));
    [|ring].
  rewrite Hs, Ha, Hsign. field.
Qed.

Lemma onto_coordinate (x y : R) :
  -1 <= x <= 1 -> -1 <= y <= 1 ->
  0.5 * ( sqrt (Rmax (2 + 2 * (x * sqrt (1 - y * y / 2)) * sqrt 2
                      + (x * sqrt (1 - y * y / 2)) * (x * sqrt (1 - y * y / 2))
                      - (y * sqrt (1 - x * x / 2)) * (y * sqrt (1 - x * x / 2))) 0)
        - sqrt (Rmax (2 - 2 * (x * sqrt (1 - y * y / 2)) * sqrt 2
                      + (x * sqrt (1 - y * y / 2)) * (x * sqrt (1 - y * y / 2))
                      - (y * sqrt (1 - x * x / 2)) * (y * sqrt (1 - x * x / 2))) 0))
  = x.
Proof.
  intros Hx Hy.
  pose proof sqrt2_sqr as Hs. pose proof sqrt2_pos as Hspos.
  assert (Ha : sqrt (1 - y * y / 2) * sqrt (1 - y * y / 2) = 1 - y * y / 2)
    by (apply sqrt_sqrt; nra).
  assert (Hb : sqrt (1 - x * x / 2) * sqrt (1 - x * x / 2) = 1 - x * x / 2)
    by (apply sqrt_sqrt; nra).
  pose proof (sqrt_pos (1 - y * y / 2)) as Hapos.
  set (a := sqrt (1 - y * y / 2)) in *.
  set (b := sqrt (1 - x * x / 2)) in *.
  set (s := sqrt 2) in *.
  replace (2 + 2 * (x * a) * s + x * a * (x * a) - y * b * (y * b))
    with ((s * a + 1 * x) * (s * a + 1 * x))
    by (rewrite <- (onto_radicand s a b x y 1 Hs Ha Hb) by ring; ring).
  replace (2 - 2 * (x * a) * s + x * a * (x * a) - y * b * (y * b))
    with ((s * a + (- 1) * x) * (s * a + (- 1) * x))
    by (rewrite <- (onto_radicand s a b x y (- 1) Hs Ha Hb) by ring; ring).
  rewrite !Rmax0_sqr, !sqrt_sqr_abs.
  assert (Hsa : 1 <= s * a).
  { assert (H2 : (s * a) * (s * a) = 2 - y * y)
      by (transitivity (s * s * (a * a)); [ring | rewrite Hs, Ha; field]).
    assert (H0 : 0 <= s * a) by nra.
    destruct (Rle_dec 1 (s * a)) as [H|H]; [exact H | nra]. }
  rewrite !Rabs_pos_eq by lra. lra.
Qed.

(** X20. The mapper covers the whole square: every point [(x, y)] of the
    square [-1, 1] x [-1, 1] is the output for the stick position
    [(x * sqrt (1 - y*y/2), y * sqrt (1 - x*x/2))], which lies in the unit
    disc. *)
Theorem circ_to_square_onto (x y : R) :
  -1 <= x <= 1 ->
  -1 <= y <= 1 ->
  fst (from_square x y) * fst (from_square x y)
    + snd (from_square x y) * snd (from_square x y) <= 1 /\
  circ_to_square (fst (from_square x y)) (snd (from_square x y)) = Ok (x, y).
Proof.
  intros Hx Hy. unfold from_square. cbn [fst snd]. split.
  - assert (Ha : sqrt (1 - y * y / 2) * sqrt (1 - y * y / 2) = 1 - y * y / 2)
      by (apply sqrt_sqrt; nra).
    assert (Hb : sqrt (1 - x * x / 2) * sqrt (1 - x * x / 2) = 1 - x * x / 2)
      by (apply sqrt_sqrt; nra).
    set (a := sqrt (1 - y * y / 2)) in *.
    set (b := sqrt (1 - x * x / 2)) in *.
    replace (x * a * (x * a) + y * b * (y * b))
      with (x * x * (a * a) + y * y * (b * b)) by ring.
    rewrite Ha, Hb.
    assert (H : 0 <= (1 - x * x) * (1 - y * y))
      by (apply Rmult_le_pos; nra).
    nra.
  - rewrite circ_to_square_eq. unfold to_square.
    rewrite (onto_coordinate x y Hx Hy).
    replace (2 + 2 * (y * sqrt (1 - x * x / 2)) * sqrt 2
             - x * sqrt (1 - y * y / 2) * (x * sqrt (1 - y * y / 2))
             + y * sqrt (1 - x * x / 2) * (y * sqrt (1 - x * x / 2)))
      with (2 + 2 * (y * sqrt (1 - x * x / 2)) * sqrt 2
            + y * sqrt (1 - x * x / 2) * (y * sqrt (1 - x * x / 2))
            - x * sqrt (1 - y * y / 2) * (x * sqrt (1 - y * y / 2))) by ring.
    replace (2 - 2 * (y * sqrt (1 - x * x / 2)) * sqrt 2
             - x * sqrt (1 - y * y / 2) * (x * sqrt (1 - y * y / 2))
             + y * sqrt (1 - x * x / 2) * (y * sqrt (1 - x * x / 2)))
      with (2 - 2 * (y * sqrt (1 - x * x / 2)) * sqrt 2
            + y * sqrt (1 - x * x / 2) * (y * sqrt (1 - x * x / 2))
            - x * sqrt (1 - y * y / 2) * (x * sqrt (1 - y * y / 2))) by ring.
    rewrite (onto_coordinate y x Hy Hx). reflexivity.
Qed.

Lemma circ_to_square_onto_witness :
  circ_to_square (fst (from_square 1 (- 1))) (snd (from_square 1 (- 1)))
  = Ok (1, - 1).
Proof. apply (circ_to_square_onto 1 (- 1)); lra. Defined.

(** ** The drive mode buttons together *)

Lemma consistent_started (w : world) : consistent (self (started w)).
Proof.
  rewrite started_self. repeat split; try reflexivity. left. reflexivity.
Qed.

(** X21. B and then A gives "local_angle", in step with the autonomous
    cycle, from any state. On a consistent object a press on A never raises,
    keeps the object consistent and gives "local" when the mode was
    "local_angle" and "local_angle" otherwise. *)
Theorem mode_buttons (m : machine) :
  (exists m',
      (set_drive_mode_manual (Some 1);;
       toggle_drive_mode_autonomous (Some 1)) m = (Ok tt, m') /\
      drive_mode (self m') = "local_angle" /\
      phase true (self m') /\
      os m' = os m) /\
  (consistent (self m) ->
   exists m',
     toggle_drive_mode_autonomous (Some 1) m = (Ok tt, m') /\
     consistent (self m') /\
     drive_mode (self m') =
       (if String.eqb (drive_mode (self m)) "local_angle"
        then "local" else "local_angle") /\
     os m' = os m).
Proof.
  split.
  - unfold set_drive_mode_manual. rewrite py_eq_one.
    unfold mbind, M_bind, assign.
    rewrite autonomous_from_user by reflexivity.
    eexists. split; [reflexivity|]. split; [reflexivity|].
    split; [|reflexivity]. split; reflexivity.
  - intros (Hrun & Hdir & Hai & Hti & [Hmode|[Hphase|Hphase]]).
    + rewrite autonomous_from_user by exact Hmode.
      eexists. split; [reflexivity|]. rewrite Hmode.
      split; [|split; reflexivity].
      repeat split; try assumption. right. left. split; reflexivity.
    + destruct (autonomous_press_phase true m Hphase) as (m' & Hpress & Hnext).
      pose proof Hphase as [Hmode Hcycle].
      exists m'. split; [exact Hpress|].
      revert Hpress. unfold toggle_drive_mode_autonomous.
      rewrite py_eq_one. run_M. rewrite Hmode. cbn. rewrite Hcycle. cbn.
      intros Hpress. apply (f_equal snd) in Hpress. cbn [snd] in Hpress.
      subst m'. repeat split; try assumption. right. right. split; reflexivity.
    + destruct (autonomous_press_phase false m Hphase) as (m' & Hpress & Hnext).
      pose proof Hphase as [Hmode Hcycle].
      exists m'. split; [exact Hpress|].
      revert Hpress. unfold toggle_drive_mode_autonomous.
      rewrite py_eq_one. run_M. rewrite Hmode. cbn. rewrite Hcycle. cbn.
      intros Hpress. apply (f_equal snd) in Hpress. cbn [snd] in Hpress.
      subst m'. repeat split; try assumption. right. left. split; reflexivity.
Qed.

Lemma mode_buttons_witness :
  exists m',
    toggle_drive_mode_autonomous (Some 1) key_stream = (Ok tt, m') /\
    consistent (self m') /\
    drive_mode (self m') =
      (if String.eqb (drive_mode (self key_stream)) "local_angle"
       then "local" else "local_angle") /\
    os m' = os key_stream.
Proof.
  apply (proj2 (mode_buttons key_stream)). apply consistent_started.
Defined.

(** ** The toggles outside the dispatch table *)

Lemma toggle_drive_mode_press (x : string) (rest : list string) (m : machine) :
  drive_mode_toggle (self m) = x :: rest ->
  toggle_drive_mode (Some 1) m =
  (Ok tt, {| self := set_drive_mode x
                       (set_drive_mode_toggle (rest ++ [x])%list (self m));
             os := os m |}).
Proof.
  intros Hcycle. unfold toggle_drive_mode. rewrite py_eq_one. run_M.
  rewrite Hcycle. reflexivity.
Qed.

Lemma toggle_recording_press (x : bool) (rest : list bool) (m : machine) :
  recording_toggle (self m) = x :: rest ->
  toggle_recording (Some 1) m =
  (Ok tt, {| self := set_recording x
                       (set_recording_toggle (rest ++ [x])%list (self m));
             os := os m |}).
Proof.
  intros Hcycle. unfold toggle_recording. rewrite py_eq_one. run_M.
  rewrite Hcycle. reflexivity.
Qed.

Lemma toggle_drive_mode_presses (l1 : list string) :
  forall (x : string) (l2 : list string) (m : machine),
    drive_mode_toggle (self m) = (l1 ++ x :: l2)%list ->
    exists m',
      presses (S (length l1)) toggle_drive_mode m = (Ok tt, m') /\
      drive_mode (self m') = x /\
      drive_mode_toggle (self m') = (l2 ++ l1 ++ [x])%list /\
      recording (self m') = recording (self m) /\
      os m' = os m.
Proof.
  induction l1 as [|y l1 IH]; intros x l2 m Hcycle.
  - cbn [presses length]. unfold mbind, M_bind.
    rewrite (toggle_drive_mode_press x l2 m Hcycle).
    eexists. split; [reflexivity|]. repeat split.
  - cbn [length]. change (presses (S (S (length l1))) toggle_drive_mode)
      with (toggle_drive_mode (Some 1);; presses (S (length l1)) toggle_drive_mode).
    unfold mbind at 1. unfold M_bind at 1.
    rewrite (toggle_drive_mode_press y (l1 ++ x :: l2)%list m Hcycle).
    match goal with
    | |- context [presses _ _ ?m1] =>
        destruct (IH x (l2 ++ [y])%list m1) as (m' & Hrun & Hmode & Hnext & Hrec & Hos)
    end.
    { cbn. rewrite <- app_assoc. reflexivity. }
    exists m'. split; [exact Hrun|]. split; [exact Hmode|].
    split; [rewrite Hnext, <- app_assoc; reflexivity|].
    split; [exact Hrec | exact Hos].
Qed.

Lemma toggle_recording_presses (l1 : list bool) :
  forall (x : bool) (l2 : list bool) (m : machine),
    recording_toggle (self m) = (l1 ++ x :: l2)%list ->
    exists m',
      presses (S (length l1)) toggle_recording m = (Ok tt, m') /\
      recording (self m') = x /\
      recording_toggle (self m') = (l2 ++ l1 ++ [x])%list /\
      drive_mode (self m') = drive_mode (self m) /\
      os m' = os m.
Proof.
  induction l1 as [|y l1 IH]; intros x l2 m Hcycle.
  - cbn [presses length]. unfold mbind, M_bind.
    rewrite (toggle_recording_press x l2 m Hcycle).
    eexists. split; [reflexivity|]. repeat split.
  - cbn [length]. change (presses (S (S (length l1))) toggle_recording)
      with (toggle_recording (Some 1);; presses (S (length l1)) toggle_recording).
    unfold mbind at 1. unfold M_bind at 1.
    rewrite (toggle_recording_press y (l1 ++ x :: l2)%list m Hcycle).
    match goal with
    | |- context [presses _ _ ?m1] =>
        destruct (IH x (l2 ++ [y])%list m1) as (m' & Hrun & Hmode & Hnext & Hrec & Hos)
    end.
    { cbn. rewrite <- app_assoc. reflexivity. }
    exists m'. split; [exact Hrun|]. split; [exact Hmode|].
    split; [rewrite Hnext, <- app_assoc; reflexivity|].
    split; [exact Hrec | exact Hos].
Qed.

(** X22. [toggle_drive_mode] and [toggle_recording] walk their cycles: when
    the cycle holds [l1 ++ x :: l2], press number [length l1 + 1] gives [x],
    and after a whole round ([l2] empty) the cycle is as it was. Neither
    toggle touches what the other one sets. On a new controller the drive
    mode is back at "user" after three presses, and recording is back on
    after two. *)
Theorem legacy_toggles :
  (forall (l1 : list string) (x : string) (l2 : list string) (m : machine),
      drive_mode_toggle (self m) = (l1 ++ x :: l2)%list ->
      exists m',
        presses (S (length l1)) toggle_drive_mode m = (Ok tt, m') /\
        drive_mode (self m') = x /\
        drive_mode_toggle (self m') = (l2 ++ l1 ++ [x])%list /\
        recording (self m') = recording (self m) /\
        os m' = os m) /\
  (forall (l1 : list bool) (x : bool) (l2 : list bool) (m : machine),
      recording_toggle (self m) = (l1 ++ x :: l2)%list ->
      exists m',
        presses (S (length l1)) toggle_recording m = (Ok tt, m') /\
        recording (self m') = x /\
        recording_toggle (self m') = (l2 ++ l1 ++ [x])%list /\
        drive_mode (self m') = drive_mode (self m) /\
        os m' = os m) /\
  (forall w : world,
      (exists m', presses 3 toggle_drive_mode (started w) = (Ok tt, m') /\
                  drive_mode (self m') = "user" /\
                  drive_mode_toggle (self m')
                  = drive_mode_toggle (self (started w))) /\
      (exists m', presses 2 toggle_recording (started w) = (Ok tt, m') /\
                  recording (self m') = true /\
                  recording_toggle (self m')
                  = recording_toggle (self (started w)))).
Proof.
  split; [intros l1; apply toggle_drive_mode_presses|].
  split; [intros l1; apply toggle_recording_presses|].
  intros w. split.
  - destruct (toggle_drive_mode_presses ["local_angle"; "local"] "user" []
                (started w)) as (m' & Hrun & Hmode & Hnext & _).
    { rewrite started_self. reflexivity. }
    exists m'. split; [exact Hrun|]. split; [exact Hmode|].
    rewrite Hnext, started_self. reflexivity.
  - destruct (toggle_recording_presses [false] true [] (started w))
      as (m' & Hrun & Hmode & Hnext & _).
    { rewrite started_self. reflexivity. }
    exists m'. split; [exact Hrun|]. split; [exact Hmode|].
    rewrite Hnext, started_self. reflexivity.
Qed.

Lemma legacy_toggles_witness :
  exists m',
    presses 2 toggle_drive_mode key_stream = (Ok tt, m') /\
    drive_mode (self m') = "local" /\
    drive_mode_toggle (self m') = ["user"; "local_angle"; "local"] /\
    recording (self m') = recording (self key_stream) /\
    os m' = os key_stream.
Proof.
  apply (proj1 legacy_toggles ["local_angle"] "local" ["user"] key_stream).
  unfold key_stream. rewrite started_self. reflexivity.
Defined.

(** ** Nothing reads [running] *)

Lemma veil_self (m m' : machine) :
  veil m = veil m' -> set_running false (self m) = set_running false (self m').
Proof. intros H. exact (f_equal self H). Qed.

Lemma veil_os (m m' : machine) :
  veil m = veil m' -> set_slept [] (os m) = set_slept [] (os m').
Proof. intros H. exact (f_equal os H). Qed.

(** A step that gives on [veil m] what it gives on [m]. *)
Lemma blind_of_commute {A : Type} (c : M A) :
  (forall m, fst (c m) = fst (c (veil m)) /\
             veil (snd (c m)) = veil (snd (c (veil m)))) ->
  blind c.
Proof.
  intros Hc m m' Hveil.
  destruct (Hc m) as [Hf Hs], (Hc m') as [Hf' Hs'].
  rewrite Hf, Hs, Hf', Hs', Hveil. split; reflexivity.
Qed.

Lemma blind_ret {A : Type} (a : A) : blind (mret a : M A).
Proof. intros m m' H. split; [reflexivity | exact H]. Qed.

Lemma blind_raise {A : Type} (e : exn) : blind (raise e : M A).
Proof. intros m m' H. split; [reflexivity | exact H]. Qed.

Lemma blind_out_of_fuel {A : Type} : blind (out_of_fuel : M A).
Proof. intros m m' H. split; [reflexivity | exact H]. Qed.

Lemma blind_lift {A : Type} (o : outcome A) : blind (lift o).
Proof. intros m m' H. split; [reflexivity | exact H]. Qed.

Lemma blind_bind {A B : Type} (c : M A) (k : A -> M B) :
  blind c -> (forall a, blind (k a)) -> blind (c ≫= k).
Proof.
  intros Hc Hk m m' Hveil. unfold mbind, M_bind.
  destruct (Hc m m' Hveil) as [Hf Hs].
  destruct (c m) as [o1 m1], (c m') as [o2 m2]. cbn [fst snd] in Hf, Hs.
  subst o2. destruct o1 as [a|e|].
  - apply Hk, Hs.
  - split; [reflexivity | exact Hs].
  - split; [reflexivity | exact Hs].
Qed.

Lemma blind_with_self {A : Type} (k : controller -> M A) :
  (forall s, blind (k s)) ->
  (forall s, k (set_running false s) = k s) ->
  blind (get_self ≫= k).
Proof.
  intros Hk Hsame m m' Hveil. unfold mbind, M_bind, get_self.
  rewrite <- (Hsame (self m)), <- (Hsame (self m')), (veil_self m m' Hveil).
  apply Hk, Hveil.
Qed.

Lemma blind_assign (f : controller -> controller) :
  (forall s, set_running false (f s)
             = set_running false (f (set_running false s))) ->
  blind (assign f).
Proof.
  intros Hf m m' Hveil. split; [reflexivity|].
  unfold assign, veil. cbn [fst snd self os].
  rewrite (Hf (self m)), (Hf (self m')), (veil_self m m' Hveil),
    (veil_os m m' Hveil).
  reflexivity.
Qed.

Lemma blind_try_except {A : Type} (body : M A) (handles : exn -> bool)
    (handler : M A) :
  blind body -> blind handler -> blind (try_except body handles handler).
Proof.
  intros Hb Hh m m' Hveil. unfold try_except.
  destruct (Hb m m' Hveil) as [Hf Hs].
  destruct (body m) as [o1 m1], (body m') as [o2 m2]. cbn [fst snd] in Hf, Hs.
  subst o2. destruct o1 as [a|e|].
  - split; [reflexivity | exact Hs].
  - destruct (handles e); [apply Hh, Hs | split; [reflexivity | exact Hs]].
  - split; [reflexivity | exact Hs].
Qed.

Lemma blind_time_sleep (secs : R) : blind (time_sleep secs).
Proof. apply blind_of_commute. intros m. split; reflexivity. Qed.

Lemma blind_time_time : blind time_time.
Proof. apply blind_of_commute. intros m. split; reflexivity. Qed.

Lemma blind_all_input_devices : blind all_input_devices.
Proof. apply blind_of_commute. intros m. split; reflexivity. Qed.

Lemma blind_read_device : blind read_device.
Proof.
  apply blind_of_commute. intros m. unfold read_device. cbn [veil os self].
  change (incoming (set_slept [] (os m))) with (incoming (os m)).
  change (reads (set_slept [] (os m))) with (reads (os m)).
  destruct (incoming (os m) (reads (os m))); split; reflexivity.
Qed.

Create HintDb blind.

#[local] Hint Resolve blind_time_sleep blind_time_time blind_all_input_devices
  blind_read_device : blind.

(** One goal [blind c], by the shape of [c]. *)
Ltac blind_go :=
  repeat first
    [ apply blind_ret
    | apply blind_raise
    | apply blind_out_of_fuel
    | apply blind_lift
    | solve [auto 1 with blind]
    | apply blind_assign; intros ?; reflexivity
    | apply blind_with_self; [intros ? | intros ?; reflexivity]
    | apply blind_bind; [ | intros ? ]
    | apply blind_try_except
    | match goal with
      | |- blind (match ?x with _ => _ end) => destruct x
      end ].

Lemma blind_find_input_device (search_term : pyval) :
  blind (find_input_device search_term).
Proof. unfold find_input_device. blind_go. Qed.

#[local] Hint Resolve blind_find_input_device : blind.

Lemma blind_load_device_loop (fuel : nat) (search_term : pyval) :
  blind (load_device_loop fuel search_term).
Proof.
  induction fuel as [|fuel IH]; cbn [load_device_loop]; blind_go.
Qed.

#[local] Hint Resolve blind_load_device_loop : blind.

Lemma blind_load_device (fuel : nat) (search_term : pyval) :
  blind (load_device fuel search_term).
Proof. unfold load_device. blind_go. Qed.

#[local] Hint Resolve blind_load_device : blind.

Lemma blind_read_loop (fuel : nat) : blind (read_loop fuel).
Proof. unfold read_loop, next_event, btn_map_get. blind_go. Qed.

#[local] Hint Resolve blind_read_loop : blind.

Lemma blind_handler (key : option string) (func : option R -> M unit)
    (val : option R) :
  dict_get func_map key = Some func -> blind (func val).
Proof.
  intros Hfunc. destruct key as [key|]; [|discriminate Hfunc].
  handler_cases Hfunc;
    unfold update_stick_x_map, update_stick_y_map, start_recording,
      stop_recording, set_drive_mode_manual, toggle_drive_mode_autonomous,
      increment_angle_scale, decrement_angle_scale, increment_throttle_scale,
      decrement_throttle_scale;
    blind_go.
Qed.

Lemma blind_update_state_from_loop (fuel : nat) :
  blind (update_state_from_loop fuel).
Proof.
  unfold update_state_from_loop.
  apply blind_bind; [apply blind_read_loop|]. intros [btn val].
  apply blind_with_self; [|intros s; reflexivity]. intros s.
  apply blind_bind; [apply blind_assign; intros ?; reflexivity|]. intros _.
  destruct (dict_get func_map btn) as [func|] eqn:Hfunc.
  - exact (blind_handler btn func val Hfunc).
  - apply blind_ret.
Qed.

#[local] Hint Resolve blind_update_state_from_loop : blind.

Lemma blind_update (fuel : nat) : blind (update fuel).
Proof. induction fuel as [|fuel IH]; cbn [update]; blind_go. Qed.

Lemma blind_run (fuel : nat) : blind (run fuel).
Proof. unfold run. blind_go. Qed.

Lemma blind_run_threaded : blind run_threaded.
Proof. unfold run_threaded. blind_go. Qed.

Lemma blind_profile_loop (fuel : nat) :
  forall (event_total : Z) (start_time : R) (results : list R),
    blind (profile_loop fuel event_total start_time results).
Proof.
  induction fuel as [|fuel IH]; intros event_total start_time results;
    cbn [profile_loop]; blind_go.
Qed.

Lemma blind_profile (fuel : nat) : blind (profile fuel).
Proof.
  unfold profile. apply blind_bind; [apply blind_time_time|]. intros start_time.
  apply blind_bind; [apply blind_profile_loop|]. intros results. blind_go.
Qed.

Lemma shutdown_veil (m : machine) :
  exists m', shutdown m = (Ok tt, m') /\ running (self m') = false /\
             veil m' = veil m.
Proof. eexists. split; [reflexivity|]. split; reflexivity. Qed.

(** X23. [shutdown] stops nothing. It returns, and leaves everything but
    [self.running] and the time slept as it was; no method reads
    [self.running], so [update_state_from_loop], [update], [run],
    [run_threaded] and [profile] have the same outcome after [shutdown] as
    without it, and leave the same object and the same world. *)
Theorem shutdown_stops_nothing (fuel : nat) (m : machine) :
  exists m',
    shutdown m = (Ok tt, m') /\
    running (self m') = false /\
    veil m' = veil m /\
    (fst (update_state_from_loop fuel m') = fst (update_state_from_loop fuel m) /\
     veil (snd (update_state_from_loop fuel m'))
     = veil (snd (update_state_from_loop fuel m))) /\
    (fst (update fuel m') = fst (update fuel m) /\
     veil (snd (update fuel m')) = veil (snd (update fuel m))) /\
    (fst (run fuel m') = fst (run fuel m) /\
     veil (snd (run fuel m')) = veil (snd (run fuel m))) /\
    (fst (run_threaded m') = fst (run_threaded m) /\
     veil (snd (run_threaded m')) = veil (snd (run_threaded m))) /\
    (fst (profile fuel m') = fst (profile fuel m) /\
     veil (snd (profile fuel m')) = veil (snd (profile fuel m))).
Proof.
  destruct (shutdown_veil m) as (m' & Hrun & Hoff & Hveil).
  exists m'. split; [exact Hrun|]. split; [exact Hoff|]. split; [exact Hveil|].
  split; [exact (blind_update_state_from_loop fuel m' m Hveil)|].
  split; [exact (blind_update fuel m' m Hveil)|].
  split; [exact (blind_run fuel m' m Hveil)|].
  split; [exact (blind_run_threaded m' m Hveil)|].
  exact (blind_profile fuel m' m Hveil).
Qed.
